(** * Lexicon-based sentiment scorer: a shallow embedding of
      [src/SentimentAnalyzer.tsx] and the properties of its two pure
      functions, [analyzeSentiment] (the spec's [classify]) and
      [getWordSentiments] (the spec's [tagWords]).

    Conventions of the embedding.
    - A JavaScript string is a sequence of UTF-16 code units.  A Rocq [string]
      stands for one whose code units all lie in U+0000..U+00FF; each [ascii]
      is one code unit.  On that range [toLowerCase], [trim] and the two
      regular expressions of the source are given in full.
    - A JavaScript number is an IEEE-754 double.  Counters and lengths are
      natural numbers (an array has fewer than 2^32 elements, so they are
      exact in a double).  The quotients, the confidence and the scores are
      given twice: [analyzeSentiment] reads them over the exact rationals
      [Q], without rounding; [analyzeSentiment64] rounds the result of every
      operation and every decimal literal to the nearest double, ties to
      even ([Double.round]).  Statements that rounding can break are made
      about [analyzeSentiment64].
    - A division whose divisor is zero leaves the finite numbers in
      JavaScript (NaN or an infinity).  [divide] records that event as [None]
      and the scorer threads it through a small error monad.
    - [Date.now()] is the only effect of the scorer; the instant is passed in
      as the argument [now]. *)

From Stdlib Require Import Bool Arith NArith ZArith List Ascii String.
From Stdlib Require Import QArith Qminmax Qround Qpower Qabs Qreduction.
From Stdlib Require Import Lia Lqa Permutation.
From Stdlib Require Import PrimFloat FloatOps SpecFloat Uint63.
Import ListNotations.

Local Open Scope string_scope.

(** ** JavaScript string primitives used by the source *)

Module JS.

Definition code (c : ascii) : N := N_of_ascii c.

(** WhiteSpace and LineTerminator code units below U+0100: TAB, LF, VT, FF,
    CR, SP and NBSP.  Both [String.prototype.trim] and the class [\s] use
    exactly this set. *)
Definition isWhiteSpace (c : ascii) : bool :=
  let n := code c in
  ((9 <=? n) && (n <=? 13) || (n =? 32) || (n =? 160))%N.

Definition isDigit (c : ascii) : bool :=
  let n := code c in ((48 <=? n) && (n <=? 57))%N.

Definition isUpper (c : ascii) : bool :=
  let n := code c in ((65 <=? n) && (n <=? 90))%N.

Definition isLower (c : ascii) : bool :=
  let n := code c in ((97 <=? n) && (n <=? 122))%N.

(** The class [\w] of a regular expression without the [u] and [i] flags:
    [A-Za-z0-9_]. *)
Definition isWordChar (c : ascii) : bool :=
  isLower c || isUpper c || isDigit c || (code c =? 95)%N.

(** Upper-case letters of the Latin-1 supplement: U+00C0..U+00DE except the
    multiplication sign U+00D7. *)
Definition isUpperLatin1 (c : ascii) : bool :=
  let n := code c in ((192 <=? n) && (n <=? 222) && negb (n =? 215))%N.

Definition toLowerChar (c : ascii) : ascii :=
  if isUpper c || isUpperLatin1 c then ascii_of_N (code c + 32) else c.

(** [s.toLowerCase()] *)
Fixpoint toLowerCase (s : string) : string :=
  match s with
  | EmptyString => EmptyString
  | String c s' => String (toLowerChar c) (toLowerCase s')
  end.

(** [s.replace(/[^\w\s]/g, '')]: every code unit that is neither in [\w] nor
    in [\s] is deleted. *)
Fixpoint stripNonWord (s : string) : string :=
  match s with
  | EmptyString => EmptyString
  | String c s' =>
      if isWordChar c || isWhiteSpace c then String c (stripNonWord s')
      else stripNonWord s'
  end.

Fixpoint trimStart (s : string) : string :=
  match s with
  | EmptyString => EmptyString
  | String c s' => if isWhiteSpace c then trimStart s' else s
  end.

Fixpoint trimEnd (s : string) : string :=
  match s with
  | EmptyString => EmptyString
  | String c s' =>
      match trimEnd s' with
      | EmptyString =>
          if isWhiteSpace c then EmptyString else String c EmptyString
      | r => String c r
      end
  end.

(** [s.trim()] *)
Definition trim (s : string) : string := trimEnd (trimStart s).

(** ToBoolean on a string: only the empty string is falsy. *)
Definition truthy (s : string) : bool :=
  match s with EmptyString => false | String _ _ => true end.

(** [s.split(/\s+/)].  The separator never matches the empty string, so each
    maximal run of white space ends the substring collected so far and the
    substring after the last run (possibly empty) is pushed at the end; the
    empty string splits into one empty substring.  [cur] is the substring
    being collected and [insep] tells that the previous code unit belonged to
    a separator. *)
Fixpoint splitGo (insep : bool) (cur : string) (s : string) : list string :=
  match s with
  | EmptyString => [cur]
  | String c s' =>
      if isWhiteSpace c then
        if insep then splitGo true cur s'
        else cur :: splitGo true EmptyString s'
      else splitGo false (cur ++ String c EmptyString) s'
  end.

Definition splitWhitespace (s : string) : list string :=
  splitGo false EmptyString s.

(** [xs.includes(w)] on an array of strings. *)
Definition includes (xs : list string) (w : string) : bool :=
  existsb (String.eqb w) xs.

End JS.

(** ** The data model of the source *)

(** ['positive' | 'negative' | 'neutral'] *)
Inductive Sentiment : Type := Positive | Negative | Neutral.

Definition Sentiment_eqb (a b : Sentiment) : bool :=
  match a, b with
  | Positive, Positive | Negative, Negative | Neutral, Neutral => true
  | _, _ => false
  end.

Record SentimentResult : Type := mkSentimentResult {
  sentiment : Sentiment;
  confidence : Q;
  positiveScore : Q;
  negativeScore : Q;
  neutralScore : Q;
  wordCount : nat;
  timestamp : Z
}.

(** [interface WordSentiment]; its field [sentiment] is [tag] here, the name
    being taken by [SentimentResult]. *)
Record WordSentiment : Type := mkWordSentiment {
  word : string;
  tag : Sentiment;
  score : Z
}.

(** The three counters that [words.forEach] updates. *)
Record Counts : Type := mkCounts {
  positiveCount : nat;
  negativeCount : nat;
  neutralCount : nat
}.

(** ** Arithmetic that can leave the finite numbers *)

Definition ofNat (n : nat) : Q := inject_Z (Z.of_nat n).

Definition divide (a b : Q) : option Q :=
  if Qeq_bool b 0 then None else Some (a / b).

Notation "x <- e ;; k" :=
  (match e with Some x => k | None => None end)
  (at level 61, e at next level, right associativity).

(** ** Binary64 arithmetic

    A finite double is a rational; the result of an operation is the exact
    result rounded to the nearest number with a significand of 53 bits, ties
    to the even significand.  The exponent range is not modelled: the
    numbers of the scorer are quotients, sums and differences of counters
    below 2^32 and of a few literals, far from overflow and underflow. *)

Module Double.

(** The integer nearest to [y], the even one of two. *)
Definition roundHalfEven (y : Q) : Z :=
  let f := Qfloor y in
  match Qcompare (y - inject_Z f) (1 # 2) with
  | Lt => f
  | Gt => (f + 1)%Z
  | Eq => if Z.even f then f else (f + 1)%Z
  end.

(** The integer [l] with [2^l <= a/b < 2^(l+1)]. *)
Definition floorLog2 (a b : positive) : Z :=
  let k := (Z.log2 (Zpos a) - Z.log2 (Zpos b))%Z in
  if Qle_bool (2 ^ k) (Zpos a # b) then k else (k - 1)%Z.

(** The double nearest to the positive rational [a/b]: the significand is
    [a/b] scaled into [2^52, 2^53) and rounded to an integer. *)
Definition roundPos (a b : positive) : Q :=
  let e := (floorLog2 a b - 52)%Z in
  inject_Z (roundHalfEven ((Zpos a # b) * 2 ^ (- e))) * 2 ^ e.

Definition round (q : Q) : Q :=
  match Qred q with
  | Qmake Z0 _ => 0
  | Qmake (Zpos a) b => roundPos a b
  | Qmake (Zneg a) b => - roundPos a b
  end.

(** The unit round-off, 2^-53. *)
Definition u : Q := 1 # 9007199254740992.

(** A decimal literal of the source denotes the nearest double. *)
Definition literal (q : Q) : Q := round q.

Definition add (x y : Q) : Q := round (x + y).
Definition sub (x y : Q) : Q := round (x - y).
Definition mul (x y : Q) : Q := round (x * y).

(** [None] for a zero divisor, as [divide]. *)
Definition div (x y : Q) : option Q :=
  if Qeq_bool y 0 then None else Some (round (x / y)).

End Double.

(** The binary64 numbers of the kernel, to check [Double.round] against
    on concrete operations. *)
Module Binary64.

Definition ofNat (n : nat) : float :=
  PrimFloat.of_uint63 (Uint63.of_Z (Z.of_nat n)).

(** The rational that a finite kernel float stands for. *)
Definition toQ (x : float) : option Q :=
  match Prim2SF x with
  | S754_zero _ => Some 0%Q
  | S754_finite s m e =>
      Some ((if s then - inject_Z (Zpos m) else inject_Z (Zpos m)) * 2 ^ e)%Q
  | _ => None
  end.

(** The kernel float [x] and the rational [q] are the same number. *)
Definition agrees (x : float) (q : Q) : bool :=
  match toQ x with
  | Some v => Qeq_bool v q
  | None => false
  end.

End Binary64.

(** ** The scorer, for any three word lists *)

Module Scorer.
Section WithLexicon.

Variables positiveWords negativeWords neutralWords : list string.

(** The expression both functions start with:
    [inputText.toLowerCase().replace(/[^\w\s]/g, '').split(/\s+/)]. *)
Definition tokenize (inputText : string) : list string :=
  JS.splitWhitespace (JS.stripNonWord (JS.toLowerCase inputText)).

(** The body of the [forEach] callback. *)
Definition countWord (c : Counts) (w : string) : Counts :=
  if JS.includes positiveWords w then
    mkCounts (S (positiveCount c)) (negativeCount c) (neutralCount c)
  else if JS.includes negativeWords w then
    mkCounts (positiveCount c) (S (negativeCount c)) (neutralCount c)
  else if JS.includes neutralWords w then
    mkCounts (positiveCount c) (negativeCount c) (S (neutralCount c))
  else c.

Definition countWords (words : list string) : Counts :=
  fold_left countWord words (mkCounts 0 0 0).

(** The label and the confidence chosen by the three-way [if]. *)
Definition label (c : Counts) (totalWords : nat) : option (Sentiment * Q) :=
  let totalSentimentWords :=
    (positiveCount c + negativeCount c + neutralCount c)%nat in
  if (negativeCount c <? positiveCount c)%nat
     && (neutralCount c <? positiveCount c)%nat then
    r <- divide (ofNat (positiveCount c)) (ofNat totalWords) ;;
    Some (Positive, Qmin 0.9 (r * 2))
  else if (positiveCount c <? negativeCount c)%nat
          && (neutralCount c <? negativeCount c)%nat then
    r <- divide (ofNat (negativeCount c)) (ofNat totalWords) ;;
    Some (Negative, Qmin 0.9 (r * 2))
  else if (totalSentimentWords =? 0)%nat then
    Some (Neutral, 0.5)
  else
    r <- divide (ofNat (neutralCount c)) (ofNat totalWords) ;;
    Some (Neutral, Qmin 0.8 (0.3 + r)).

Definition analyzeSentiment (now : Z) (inputText : string)
  : option SentimentResult :=
  if negb (JS.truthy (JS.trim inputText)) then
    Some {| sentiment := Neutral;
            confidence := 0;
            positiveScore := 0;
            negativeScore := 0;
            neutralScore := 1;
            wordCount := 0;
            timestamp := now |}
  else
    let words := tokenize inputText in
    let c := countWords words in
    let totalWords := List.length words in
    sc <- label c totalWords ;;
    positiveScore <- divide (ofNat (positiveCount c))
                            (ofNat (Nat.max totalWords 1)) ;;
    negativeScore <- divide (ofNat (negativeCount c))
                            (ofNat (Nat.max totalWords 1)) ;;
    let neutralScore := 1 - positiveScore - negativeScore in
    Some {| sentiment := fst sc;
            confidence := snd sc;
            positiveScore := positiveScore;
            negativeScore := negativeScore;
            neutralScore := neutralScore;
            wordCount := totalWords;
            timestamp := now |}.

(** The same two definitions with every operation rounded to a double. *)
Definition label64 (c : Counts) (totalWords : nat) : option (Sentiment * Q) :=
  let totalSentimentWords :=
    (positiveCount c + negativeCount c + neutralCount c)%nat in
  if (negativeCount c <? positiveCount c)%nat
     && (neutralCount c <? positiveCount c)%nat then
    r <- Double.div (ofNat (positiveCount c)) (ofNat totalWords) ;;
    Some (Positive, Qmin (Double.literal 0.9) (Double.mul r 2))
  else if (positiveCount c <? negativeCount c)%nat
          && (neutralCount c <? negativeCount c)%nat then
    r <- Double.div (ofNat (negativeCount c)) (ofNat totalWords) ;;
    Some (Negative, Qmin (Double.literal 0.9) (Double.mul r 2))
  else if (totalSentimentWords =? 0)%nat then
    Some (Neutral, Double.literal 0.5)
  else
    r <- Double.div (ofNat (neutralCount c)) (ofNat totalWords) ;;
    Some (Neutral,
          Qmin (Double.literal 0.8) (Double.add (Double.literal 0.3) r)).

Definition analyzeSentiment64 (now : Z) (inputText : string)
  : option SentimentResult :=
  if negb (JS.truthy (JS.trim inputText)) then
    Some {| sentiment := Neutral;
            confidence := 0;
            positiveScore := 0;
            negativeScore := 0;
            neutralScore := 1;
            wordCount := 0;
            timestamp := now |}
  else
    let words := tokenize inputText in
    let c := countWords words in
    let totalWords := List.length words in
    sc <- label64 c totalWords ;;
    positiveScore <- Double.div (ofNat (positiveCount c))
                                (ofNat (Nat.max totalWords 1)) ;;
    negativeScore <- Double.div (ofNat (negativeCount c))
                                (ofNat (Nat.max totalWords 1)) ;;
    let neutralScore :=
      Double.sub (Double.sub 1 positiveScore) negativeScore in
    Some {| sentiment := fst sc;
            confidence := snd sc;
            positiveScore := positiveScore;
            negativeScore := negativeScore;
            neutralScore := neutralScore;
            wordCount := totalWords;
            timestamp := now |}.

(** The callback of [words.map] in [getWordSentiments]. *)
Definition tagWord (w : string) : WordSentiment :=
  if JS.includes positiveWords w then
    {| word := w; tag := Positive; score := 1 |}
  else if JS.includes negativeWords w then
    {| word := w; tag := Negative; score := -1 |}
  else if JS.includes neutralWords w then
    {| word := w; tag := Neutral; score := 0 |}
  else {| word := w; tag := Neutral; score := 0 |}.

Definition getWordSentiments (inputText : string) : list WordSentiment :=
  map tagWord (tokenize inputText).

End WithLexicon.
End Scorer.

(** ** The word lists shipped with the component *)

Definition positiveWords : list string := [
  "amazing"; "awesome"; "brilliant"; "excellent"; "fantastic"; "great"; "happy";
  "incredible"; "love"; "perfect"; "wonderful"; "good"; "best"; "beautiful";
  "outstanding"; "superb"; "magnificent"; "delightful"; "pleasant"; "satisfied";
  "impressive"; "remarkable"; "exceptional"; "marvelous"; "terrific"; "fabulous";
  "gorgeous"; "splendid"; "stellar"; "phenomenal"; "enjoy"; "like"; "appreciate";
  "adore"; "treasure"; "cherish"; "celebrate"; "success"; "victory"; "triumph"
].

Definition negativeWords : list string := [
  "awful"; "terrible"; "horrible"; "bad"; "worst"; "hate"; "disgusting";
  "disappointing"; "frustrating"; "annoying"; "angry"; "sad"; "depressing";
  "pathetic"; "useless"; "worthless"; "dreadful"; "appalling"; "shocking";
  "disturbing"; "offensive"; "unacceptable"; "ridiculous"; "stupid"; "idiotic";
  "dislike"; "despise"; "detest"; "loathe"; "failure"; "disaster"; "catastrophe";
  "nightmare"; "regret"; "mistake"; "problem"; "issue"; "trouble"; "difficulty"
].

Definition neutralWords : list string := [
  "okay"; "fine"; "average"; "normal"; "standard"; "typical"; "usual";
  "regular"; "common"; "ordinary"; "moderate"; "fair"; "decent"; "adequate"
].

Definition tokenize : string -> list string := Scorer.tokenize.

Definition countWords : list string -> Counts :=
  Scorer.countWords positiveWords negativeWords neutralWords.

Definition analyzeSentiment : Z -> string -> option SentimentResult :=
  Scorer.analyzeSentiment positiveWords negativeWords neutralWords.

Definition analyzeSentiment64 : Z -> string -> option SentimentResult :=
  Scorer.analyzeSentiment64 positiveWords negativeWords neutralWords.

Definition getWordSentiments : string -> list WordSentiment :=
  Scorer.getWordSentiments positiveWords negativeWords neutralWords.

(** ** Vocabulary of the statements *)

(** The counters and the word total of [analyzeSentiment] on an input, under
    the names the source gives them. *)
Definition counts (inputText : string) : Counts :=
  countWords (tokenize inputText).

Definition totalWords (inputText : string) : nat :=
  List.length (tokenize inputText).

(** The three tests a token goes through, in the order of the source: the
    positive list, else the negative list, else the neutral list. *)
Definition hitsPositive (P : list string) (w : string) : bool :=
  JS.includes P w.

Definition hitsNegative (P N : list string) (w : string) : bool :=
  negb (JS.includes P w) && JS.includes N w.

Definition hitsNeutral (P N U : list string) (w : string) : bool :=
  negb (JS.includes P w) && negb (JS.includes N w) && JS.includes U w.

(** The code units of a string, in order. *)
Definition chars (s : string) : list ascii := list_ascii_of_string s.

(** Every code unit of [s] passes the test [p]. *)
Fixpoint allChars (p : ascii -> bool) (s : string) : bool :=
  match s with
  | EmptyString => true
  | String c s' => p c && allChars p s'
  end.

(** The code units of [s] that pass the test [p], in order. *)
Fixpoint keepChars (p : ascii -> bool) (s : string) : string :=
  match s with
  | EmptyString => EmptyString
  | String c s' => if p c then String c (keepChars p s') else keepChars p s'
  end.

(** A lower-case ASCII letter, a digit or the underscore. *)
Definition isLowerWordChar (c : ascii) : bool :=
  JS.isLower c || JS.isDigit c || (JS.code c =? 95)%N.

(** An ASCII letter or a digit. *)
Definition isLetterOrDigit (c : ascii) : bool :=
  JS.isLower c || JS.isUpper c || JS.isDigit c.

(** Number of maximal runs of white space in [s]; [insep] as in
    [JS.splitGo]. *)
Fixpoint whiteRuns (insep : bool) (s : string) : nat :=
  match s with
  | EmptyString => 0
  | String c s' =>
      if JS.isWhiteSpace c then
        if insep then whiteRuns true s' else S (whiteRuns true s')
      else whiteRuns false s'
  end.

(** [s] has no white space. *)
Definition noWhite (s : string) : bool :=
  allChars (fun c => negb (JS.isWhiteSpace c)) s.

(** [s] starts with white space. *)
Definition startsWhite (s : string) : bool :=
  match s with
  | EmptyString => false
  | String c _ => JS.isWhiteSpace c
  end.

(** "Split on one-or-more whitespace characters", as a relation between a
    text and its pieces, written from the words of the spec and not from
    [JS.splitGo]: the text is a piece without white space, or such a piece
    followed by a run of one or more white-space code units, taken as long
    as it goes, followed by a text that is split in the same way. *)
Inductive SplitOnWhitespace : string -> list string -> Prop :=
  | Split_last (tok : string) :
      noWhite tok = true -> SplitOnWhitespace tok [tok]
  | Split_cut (tok sep rest : string) (toks : list string) :
      noWhite tok = true ->
      sep <> "" -> allChars JS.isWhiteSpace sep = true ->
      startsWhite rest = false ->
      SplitOnWhitespace rest toks ->
      SplitOnWhitespace (tok ++ sep ++ rest) (tok :: toks).

(** Number of tags that carry the label [l]. *)
Definition countTag (l : Sentiment) (tags : list WordSentiment) : nat :=
  List.length (filter (fun t => Sentiment_eqb (tag t) l) tags).

(** Number of words that pass the test [p]. *)
Definition countIf (p : string -> bool) (ws : list string) : nat :=
  List.length (filter p ws).

(** The result returned for blank input. *)
Definition emptyDefault (now : Z) : SentimentResult :=
  {| sentiment := Neutral;
     confidence := 0;
     positiveScore := 0;
     negativeScore := 0;
     neutralScore := 1;
     wordCount := 0;
     timestamp := now |}.



(** ** The component around the scorer

    The state of [SentimentAnalyzer] and the bodies of its callbacks, each as
    a function on the state.  When a callback runs is decided by the browser
    and by React; here any order of events is allowed. *)

(** An element of [history]: [{ text, result }]. *)
Module Entry.
Record t : Type := mk {
  text : string;
  result : SentimentResult
}.
End Entry.

Module App.

(** The four [useState] cells, and [timer]: the text captured by the pending
    [setTimeout] of the effect, if one is pending. *)
Record State : Type := mkState {
  text : string;
  result : option SentimentResult;
  history : list Entry.t;
  isAnalyzing : bool;
  timer : option string
}.

Definition initial : State :=
  {| text := ""; result := None; history := []; isAnalyzing := false;
     timer := None |}.

(** [onChange={(e) => setText(e.target.value)}] *)
Definition setText (value : string) (s : State) : State :=
  {| text := value; result := result s; history := history s;
     isAnalyzing := isAnalyzing s; timer := timer s |}.

(** The body of [useEffect]: the clean-up of the previous run has cleared
    the previous timer; a new one is set only for text that is not blank. *)
Definition effect (s : State) : State :=
  if JS.truthy (JS.trim (text s)) then
    {| text := text s; result := result s; history := history s;
       isAnalyzing := true; timer := Some (text s) |}
  else
    {| text := text s; result := None; history := history s;
       isAnalyzing := false; timer := None |}.

(** The callback given to [setTimeout], run at instant [now] on the text it
    captured. *)
Definition timeout (now : Z) (s : State) : option State :=
  match timer s with
  | None => None
  | Some captured =>
      analysisResult <- analyzeSentiment now captured ;;
      Some {| text := text s; result := Some analysisResult;
              history := history s; isAnalyzing := false; timer := None |}
  end.

(** [handleAnalyze]; [prev.slice(0, 9)] is [firstn 9 prev]. *)
Definition handleAnalyze (s : State) : State :=
  match JS.truthy (JS.trim (text s)), result s with
  | true, Some r =>
      let newEntry := Entry.mk (text s) r in
      {| text := text s; result := result s;
         history := newEntry :: firstn 9 (history s);
         isAnalyzing := isAnalyzing s; timer := timer s |}
  | _, _ => s
  end.

(** [handleClear] *)
Definition handleClear (s : State) : State :=
  {| text := ""; result := None; history := [];
     isAnalyzing := isAnalyzing s; timer := timer s |}.

(** The object that [handleExport] serializes; [exportDate] is the ISO form
    of the instant of the call, passed in. *)
Record ExportData : Type := mkExportData {
  exportDate : string;
  analyses : list Entry.t
}.

(** [handleExport] up to the construction of [exportData]; [None] is the
    early [return]. *)
Definition handleExport (isoNow : string) (s : State) : option ExportData :=
  if (List.length (history s) =? 0)%nat then None
  else Some {| exportDate := isoNow; analyses := history s |}.

(** [disabled={!text.trim() || !result}] of the button "Add to History". *)
Definition addDisabled (s : State) : bool :=
  negb (JS.truthy (JS.trim (text s)))
  || match result s with Some _ => false | None => true end.

(** [const wordSentiments = text ? getWordSentiments(text) : []] *)
Definition wordSentiments (s : State) : list WordSentiment :=
  if JS.truthy (text s) then getWordSentiments (text s) else [].

(** The text shown for a history entry:
    [entry.text.length > 200 ? `${entry.text.substring(0, 200)}...`
                             : entry.text]. *)
Definition shownText (entryText : string) : string :=
  if (200 <? String.length entryText)%nat
  then substring 0 200 entryText ++ "..."
  else entryText.

Inductive Event : Type :=
  | Change (value : string)
  | Effect
  | Timeout (now : Z)
  | Analyze
  | Clear.

(** One event; [None] when the event cannot happen in [s] (no timer is
    pending) or the scorer fails. *)
Definition step (e : Event) (s : State) : option State :=
  match e with
  | Change value => Some (setText value s)
  | Effect => Some (effect s)
  | Timeout now => timeout now s
  | Analyze => Some (handleAnalyze s)
  | Clear => Some (handleClear s)
  end.

Fixpoint run (es : list Event) (s : State) : option State :=
  match es with
  | [] => Some s
  | e :: es' => s' <- step e s ;; run es' s'
  end.

End App.

(** A result that [analyzeSentiment] returned for some text that is not
    blank. *)
Definition analysed (r : SentimentResult) : Prop :=
  exists (now : Z) (inputText : string),
    JS.trim inputText <> "" /\ analyzeSentiment now inputText = Some r.

(** What every state reached from the initial one satisfies. *)
Definition entryOK (e : Entry.t) : Prop :=
  JS.trim (Entry.text e) <> "" /\ analysed (Entry.result e).

Definition invariant (s : App.State) : Prop :=
  (List.length (App.history s) <= 10)%nat /\
  Forall entryOK (App.history s) /\
  (forall r, App.result s = Some r -> analysed r) /\
  (forall t, App.timer s = Some t -> JS.trim t <> "").

(** The sum of the scores of a tag list. *)
Definition netScore (tags : list WordSentiment) : Z :=
  fold_right Z.add 0%Z (map score tags).

(** ** Facts about code units *)

Ltac each_code_unit c :=
  destruct c as [[] [] [] [] [] [] [] []]; vm_compute; try reflexivity;
  try discriminate; auto.

Lemma toLowerChar_whitespace (c : ascii) :
  JS.isWhiteSpace c = true -> JS.toLowerChar c = c.
Proof. each_code_unit c. Qed.

Lemma toLowerChar_word (c : ascii) :
  JS.isWordChar (JS.toLowerChar c) = true ->
  isLowerWordChar (JS.toLowerChar c) = true.
Proof. each_code_unit c. Qed.

Lemma whitespace_not_word (c : ascii) :
  JS.isWhiteSpace c = true -> JS.isWordChar c = false.
Proof. each_code_unit c. Qed.

Lemma lowerWord_is_word (c : ascii) :
  isLowerWordChar c = true -> JS.isWordChar c = true.
Proof. each_code_unit c. Qed.

(** ** Facts about [trim] *)

Lemma trimStart_blank (s : string) :
  JS.trimStart s = "" <-> allChars JS.isWhiteSpace s = true.
Proof.
  induction s as [|c s IH]; simpl.
  - tauto.
  - destruct (JS.isWhiteSpace c); simpl.
    + exact IH.
    + split; discriminate.
Qed.

Lemma trimEnd_blank (s : string) :
  JS.trimEnd s = "" <-> allChars JS.isWhiteSpace s = true.
Proof.
  induction s as [|c s IH]; simpl.
  - tauto.
  - destruct (JS.trimEnd s) eqn:E.
    + destruct (JS.isWhiteSpace c); simpl.
      * tauto.
      * split; discriminate.
    + split; [discriminate|].
      intros H. apply andb_true_iff in H. destruct H as [_ H].
      apply IH in H. discriminate.
Qed.

Lemma allChars_trimStart (s : string) :
  allChars JS.isWhiteSpace (JS.trimStart s) = allChars JS.isWhiteSpace s.
Proof.
  induction s as [|c s IH]; simpl; [reflexivity|].
  destruct (JS.isWhiteSpace c) eqn:E; simpl; [exact IH|].
  rewrite E. reflexivity.
Qed.

Lemma trim_blank (s : string) :
  JS.trim s = "" <-> allChars JS.isWhiteSpace s = true.
Proof.
  unfold JS.trim. rewrite trimEnd_blank, allChars_trimStart. tauto.
Qed.

Lemma truthy_trim_false (s : string) :
  JS.truthy (JS.trim s) = false <-> JS.trim s = "".
Proof.
  destruct (JS.trim s); simpl; split; congruence.
Qed.

(** ** Facts about [split] *)

Lemma append_empty_r (s : string) : s ++ "" = s.
Proof. induction s as [|c s IH]; simpl; congruence. Qed.

Lemma append_assoc (a b c : string) : (a ++ b) ++ c = a ++ (b ++ c).
Proof. induction a as [|x a IH]; simpl; congruence. Qed.

Lemma allChars_append (p : ascii -> bool) (a b : string) :
  allChars p (a ++ b) = allChars p a && allChars p b.
Proof.
  induction a as [|x a IH]; simpl; [reflexivity|].
  rewrite IH. apply andb_assoc.
Qed.

Lemma allChars_In (p : ascii -> bool) (s : string) :
  allChars p s = true <-> forall c, In c (chars s) -> p c = true.
Proof.
  induction s as [|x s IH]; simpl.
  - split; [intros _ c []|reflexivity].
  - rewrite andb_true_iff, IH. split.
    + intros [Hx Hs] c [<-|Hc]; auto.
    + intros H. split; [apply H; now left|intros c Hc; apply H; now right].
Qed.

Lemma splitGo_cons (insep : bool) (cur s : string) :
  exists x rest, JS.splitGo insep cur s = x :: rest.
Proof.
  revert insep cur. induction s as [|c s IH]; intros insep cur; simpl.
  - eauto.
  - destruct (JS.isWhiteSpace c); [destruct insep|]; eauto.
Qed.

Lemma splitGo_length (insep : bool) (cur s : string) :
  List.length (JS.splitGo insep cur s) = S (whiteRuns insep s).
Proof.
  revert insep cur. induction s as [|c s IH]; intros insep cur; simpl.
  - reflexivity.
  - destruct (JS.isWhiteSpace c); [destruct insep|]; simpl; rewrite ?IH; auto.
Qed.

Lemma splitGo_allChars (p : ascii -> bool) (insep : bool) (cur s : string) :
  allChars p cur = true ->
  allChars (fun c => JS.isWhiteSpace c || p c) s = true ->
  Forall (fun tok => allChars p tok = true) (JS.splitGo insep cur s).
Proof.
  revert insep cur. induction s as [|c s IH]; intros insep cur Hcur Hs; simpl.
  - constructor; auto.
  - simpl in Hs. apply andb_true_iff in Hs. destruct Hs as [Hc Hs].
    destruct (JS.isWhiteSpace c) eqn:E.
    + destruct insep; [apply IH; auto|].
      constructor; [exact Hcur|apply IH; auto].
    + apply IH; [|exact Hs].
      rewrite allChars_append. simpl in *. rewrite Hcur, Hc. reflexivity.
Qed.

Lemma splitGo_concat (insep : bool) (cur s : string) :
  fold_right append "" (JS.splitGo insep cur s)
  = cur ++ keepChars (fun c => negb (JS.isWhiteSpace c)) s.
Proof.
  revert insep cur. induction s as [|c s IH]; intros insep cur; simpl.
  - rewrite append_empty_r. reflexivity.
  - destruct (JS.isWhiteSpace c); simpl.
    + destruct insep; simpl; rewrite IH; reflexivity.
    + rewrite IH, append_assoc. reflexivity.
Qed.

Lemma splitGo_blank_insep (cur s : string) :
  allChars JS.isWhiteSpace s = true -> JS.splitGo true cur s = [cur].
Proof.
  induction s as [|c s IH]; simpl; [reflexivity|].
  intros H. apply andb_true_iff in H. destruct H as [Hc Hs].
  rewrite Hc. auto.
Qed.

Lemma splitWhitespace_blank (s : string) :
  allChars JS.isWhiteSpace s = true ->
  JS.splitWhitespace s = match s with EmptyString => [""] | _ => [""; ""] end.
Proof.
  destruct s as [|c s]; simpl; [reflexivity|].
  intros H. apply andb_true_iff in H. destruct H as [Hc Hs].
  unfold JS.splitWhitespace. simpl. rewrite Hc.
  rewrite splitGo_blank_insep by exact Hs. reflexivity.
Qed.

Lemma append_nonempty (a : string) (c : ascii) : a ++ String c "" <> "".
Proof. destruct a; discriminate. Qed.

Lemma splitGo_head (cur s : string) :
  cur <> "" ->
  exists x rest, JS.splitGo false cur s = x :: rest /\ x <> "".
Proof.
  revert cur. induction s as [|c s IH]; intros cur Hcur; simpl.
  - eauto.
  - destruct (JS.isWhiteSpace c); [eauto|].
    apply IH, append_nonempty.
Qed.

(** Only the first and the last substring of a split can be empty. *)
Lemma splitGo_inner (s : string) :
  (forall cur, Forall (fun tok => tok <> "")
                      (removelast (tl (JS.splitGo false cur s)))) /\
  (forall cur, Forall (fun tok => tok <> "")
                      (removelast (JS.splitGo true cur s))).
Proof.
  induction s as [|c s [IHf IHt]]; simpl.
  - split; intros; constructor.
  - destruct (JS.isWhiteSpace c); simpl.
    + split; intros cur; [apply IHt|apply IHt].
    + split; intros cur; [apply IHf|].
      destruct (splitGo_head (cur ++ String c "") s (append_nonempty cur c))
        as [x [rest [Hx Hne]]].
      specialize (IHf (cur ++ String c "")). rewrite Hx in *. simpl in IHf.
      destruct rest; simpl; [constructor|].
      constructor; [exact Hne|exact IHf].
Qed.

Lemma length_append_string (a b : string) :
  String.length (a ++ b) = (String.length a + String.length b)%nat.
Proof.
  induction a as [|c a IH]; simpl; [reflexivity|]. rewrite IH. reflexivity.
Qed.

(** A stretch without white space is collected into the current
    substring. *)
Lemma splitGo_stretch (cur x s : string) :
  allChars (fun c => negb (JS.isWhiteSpace c)) x = true ->
  JS.splitGo false cur (x ++ s) = JS.splitGo false (cur ++ x) s.
Proof.
  revert cur. induction x as [|c x IH]; intros cur H; simpl.
  - rewrite append_empty_r. reflexivity.
  - simpl in H. apply andb_true_iff in H. destruct H as [Hc Hx].
    apply negb_true_iff in Hc. rewrite Hc.
    destruct s as [|d s'] eqn:Es.
    + rewrite IH by exact Hx. rewrite append_assoc. reflexivity.
    + rewrite IH by exact Hx. rewrite append_assoc. reflexivity.
Qed.

Lemma splitGo_stretch_insep (x s : string) :
  allChars (fun c => negb (JS.isWhiteSpace c)) x = true -> x <> "" ->
  JS.splitGo true "" (x ++ s) = JS.splitGo false x s.
Proof.
  destruct x as [|c x]; [congruence|]. intros H _. simpl in *.
  apply andb_true_iff in H. destruct H as [Hc Hx].
  apply negb_true_iff in Hc. rewrite Hc.
  apply (splitGo_stretch (String c "") x s Hx).
Qed.

Lemma concat_cons2 (sep x y : string) (l : list string) :
  String.concat sep (x :: y :: l) = x ++ sep ++ String.concat sep (y :: l).
Proof. reflexivity. Qed.

Lemma splitGo_space (cur s : string) :
  JS.splitGo false cur (" " ++ s) = cur :: JS.splitGo true "" s.
Proof. reflexivity. Qed.

Lemma splitGo_skip (cur w s : string) :
  allChars JS.isWhiteSpace w = true ->
  JS.splitGo true cur (w ++ s) = JS.splitGo true cur s.
Proof.
  induction w as [|c w IH]; simpl; [reflexivity|].
  intros H. apply andb_true_iff in H. destruct H as [Hc Hw].
  rewrite Hc. exact (IH Hw).
Qed.

Lemma splitGo_after_run (s : string) :
  startsWhite s = false -> JS.splitGo true "" s = JS.splitGo false "" s.
Proof.
  destruct s as [|c s]; simpl; [reflexivity|].
  intros H. rewrite H. reflexivity.
Qed.

(** The relation that follows the spec's words and [split] agree. *)
Lemma split_spec_sound (s : string) (l : list string) :
  SplitOnWhitespace s l -> JS.splitWhitespace s = l.
Proof.
  unfold JS.splitWhitespace.
  induction 1 as [tok Htok|tok sep rest toks Htok Hne Hsep Hrest _ IH].
  - rewrite <- (append_empty_r tok) at 1.
    rewrite splitGo_stretch by exact Htok. reflexivity.
  - rewrite splitGo_stretch by exact Htok. change ("" ++ tok) with tok.
    destruct sep as [|c sep]; [congruence|].
    simpl in Hsep. apply andb_true_iff in Hsep. destruct Hsep as [Hc Hsep].
    simpl. rewrite Hc. f_equal.
    rewrite splitGo_skip by exact Hsep.
    rewrite splitGo_after_run by exact Hrest. exact IH.
Qed.

Lemma span_noWhite (s : string) :
  exists tok r,
    s = tok ++ r /\ noWhite tok = true /\
    (r = "" \/ startsWhite r = true) /\
    (String.length r <= String.length s)%nat.
Proof.
  induction s as [|c s [tok [r [E [Htok [Hr Hlen]]]]]].
  - exists "", "". simpl. auto.
  - destruct (JS.isWhiteSpace c) eqn:Ec.
    + exists "", (String c s). simpl. rewrite Ec. auto.
    + exists (String c tok), r. subst s. unfold noWhite in *.
      cbn [append allChars String.length]. rewrite Ec, Htok.
      repeat split; auto.
Qed.

Lemma span_white (s : string) :
  exists sep rest,
    s = sep ++ rest /\ allChars JS.isWhiteSpace sep = true /\
    startsWhite rest = false /\
    (startsWhite s = true -> sep <> "") /\
    (startsWhite s = true -> (String.length rest < String.length s)%nat).
Proof.
  induction s as [|c s [sep [rest [E [Hsep [Hrest [_ _]]]]]]].
  - exists "", "". simpl. repeat split; auto; discriminate.
  - destruct (JS.isWhiteSpace c) eqn:Ec.
    + exists (String c sep), rest. simpl. rewrite E, Ec, Hsep.
      repeat split; auto; try discriminate.
      intros _. rewrite length_append_string. lia.
    + exists "", (String c s). simpl. rewrite Ec.
      repeat split; auto; discriminate.
Qed.

Lemma split_spec_exists (n : nat) (s : string) :
  (String.length s <= n)%nat -> exists l, SplitOnWhitespace s l.
Proof.
  revert s. induction n as [|n IH]; intros s Hn.
  - destruct s; [|simpl in Hn; lia].
    exists [""]. apply Split_last. reflexivity.
  - destruct (span_noWhite s) as [tok [r [E [Htok [Hr Hlen]]]]].
    destruct Hr as [->|Hr].
    + rewrite append_empty_r in E. subst s.
      exists [tok]. apply Split_last, Htok.
    + destruct (span_white r) as [sep [rest [Er [Hsep [Hrest [Hne Hlt]]]]]].
      specialize (Hne Hr). specialize (Hlt Hr).
      destruct (IH rest ltac:(lia)) as [toks Htoks].
      exists (tok :: toks). rewrite E, Er.
      apply Split_cut; assumption.
Qed.

Lemma split_spec_complete (s : string) :
  SplitOnWhitespace s (JS.splitWhitespace s).
Proof.
  destruct (split_spec_exists (String.length s) s (le_n _)) as [l Hl].
  rewrite (split_spec_sound s l Hl). exact Hl.
Qed.

Lemma stripNonWord_keepChars (s : string) :
  JS.stripNonWord s
  = keepChars (fun c => JS.isWordChar c || JS.isWhiteSpace c) s.
Proof.
  induction s as [|c s IH]; simpl; [reflexivity|]. rewrite IH. reflexivity.
Qed.

Lemma chars_toLowerCase (s : string) :
  chars (JS.toLowerCase s) = map JS.toLowerChar (chars s).
Proof.
  unfold chars. induction s as [|c s IH]; simpl; [reflexivity|].
  rewrite IH. reflexivity.
Qed.

(** ** Facts about the tokenizer *)

Lemma toLowerCase_blank (s : string) :
  allChars JS.isWhiteSpace s = true -> JS.toLowerCase s = s.
Proof.
  induction s as [|c s IH]; simpl; [reflexivity|].
  intros H. apply andb_true_iff in H. destruct H as [Hc Hs].
  rewrite toLowerChar_whitespace, IH; auto.
Qed.

Lemma stripNonWord_blank (s : string) :
  allChars JS.isWhiteSpace s = true -> JS.stripNonWord s = s.
Proof.
  induction s as [|c s IH]; simpl; [reflexivity|].
  intros H. apply andb_true_iff in H. destruct H as [Hc Hs].
  rewrite Hc, orb_true_r, IH; auto.
Qed.

Lemma tokenize_blank (s : string) :
  allChars JS.isWhiteSpace s = true ->
  tokenize s = match s with EmptyString => [""] | _ => [""; ""] end.
Proof.
  intros H. unfold tokenize, Scorer.tokenize.
  rewrite toLowerCase_blank, stripNonWord_blank, splitWhitespace_blank; auto.
Qed.

Lemma stripped_lower_chars (s : string) :
  allChars (fun c => JS.isWhiteSpace c || isLowerWordChar c)
           (JS.stripNonWord (JS.toLowerCase s)) = true.
Proof.
  induction s as [|c s IH]; simpl; [reflexivity|].
  destruct (JS.isWordChar (JS.toLowerChar c)) eqn:Ew; simpl.
  - rewrite (toLowerChar_word c Ew), orb_true_r. exact IH.
  - destruct (JS.isWhiteSpace (JS.toLowerChar c)) eqn:Es; simpl; [|exact IH].
    rewrite Es. exact IH.
Qed.

Lemma keep_nonwhite_stripped (s : string) :
  keepChars (fun c => negb (JS.isWhiteSpace c)) (JS.stripNonWord s)
  = keepChars JS.isWordChar s.
Proof.
  induction s as [|c s IH]; simpl; [reflexivity|].
  destruct (JS.isWordChar c) eqn:Ew; simpl.
  - destruct (JS.isWhiteSpace c) eqn:Es; simpl.
    + rewrite (whitespace_not_word c Es) in Ew. discriminate.
    + rewrite IH. reflexivity.
  - destruct (JS.isWhiteSpace c) eqn:Es; simpl; [rewrite Es; simpl|]; exact IH.
Qed.

Lemma tokenize_cons (s : string) : exists x rest, tokenize s = x :: rest.
Proof. apply splitGo_cons. Qed.

Lemma tokenize_length_pos (s : string) : (1 <= List.length (tokenize s))%nat.
Proof. destruct (tokenize_cons s) as [x [rest ->]]. simpl. lia. Qed.

(** ** Facts about the arithmetic *)

Lemma ofNat_nonneg (n : nat) : (0 <= ofNat n)%Q.
Proof.
  unfold ofNat, Qle. simpl. lia.
Qed.

Lemma ofNat_pos (n : nat) : (1 <= n)%nat -> (0 < ofNat n)%Q.
Proof.
  intros H. unfold ofNat, Qlt. simpl. lia.
Qed.

Lemma ofNat_le (m n : nat) : (m <= n)%nat -> (ofNat m <= ofNat n)%Q.
Proof.
  intros H. unfold ofNat. rewrite <- Zle_Qle. lia.
Qed.

Lemma divide_ofNat (a : Q) (n : nat) :
  (1 <= n)%nat -> divide a (ofNat n) = Some (a / ofNat n)%Q.
Proof.
  intros H. unfold divide.
  destruct (Qeq_bool (ofNat n) 0) eqn:E; [|reflexivity].
  apply Qeq_bool_eq in E. pose proof (ofNat_pos n H) as Hp.
  rewrite E in Hp. exfalso. exact (Qlt_irrefl 0 Hp).
Qed.

Lemma fraction_bounds (m n : nat) :
  (m <= n)%nat -> (1 <= n)%nat -> (0 <= ofNat m / ofNat n <= 1)%Q.
Proof.
  intros Hmn Hn. pose proof (ofNat_pos n Hn) as Hp. split.
  - apply Qle_shift_div_l; [exact Hp|].
    rewrite Qmult_0_l. apply ofNat_nonneg.
  - apply Qle_shift_div_r; [exact Hp|].
    rewrite Qmult_1_l. apply ofNat_le, Hmn.
Qed.

Lemma Qmin_bounds (cap x : Q) :
  (0 <= cap)%Q -> (0 <= x)%Q -> (0 <= Qmin cap x <= cap)%Q.
Proof.
  intros Hc Hx. split; [|apply Q.le_min_l].
  apply Q.min_glb; assumption.
Qed.

(** ** Facts about binary64 rounding *)

Module DoubleFacts.
Import Double.

Lemma roundHalfEven_bounds (y : Q) :
  inject_Z (roundHalfEven y) - (1 # 2) <= y /\
  y <= inject_Z (roundHalfEven y) + (1 # 2).
Proof.
  unfold roundHalfEven.
  pose proof (Qfloor_le y) as Hlo. pose proof (Qlt_floor y) as Hhi.
  rewrite inject_Z_plus in Hhi. change (inject_Z 1) with 1 in Hhi.
  generalize dependent (Qfloor y). intros f Hlo Hhi.
  destruct (Qcompare (y - inject_Z f) (1 # 2)) eqn:E.
  - apply Qeq_alt in E.
    destruct (Z.even f); rewrite ?inject_Z_plus;
      change (inject_Z 1) with 1; split; lra.
  - apply Qlt_alt in E. split; lra.
  - apply Qgt_alt in E. rewrite inject_Z_plus.
    change (inject_Z 1) with 1. split; lra.
Qed.

Lemma roundHalfEven_comp (x y : Q) :
  x == y -> roundHalfEven x = roundHalfEven y.
Proof.
  intros E. unfold roundHalfEven.
  rewrite (Qfloor_comp x y E).
  assert (E2 : x - inject_Z (Qfloor y) == y - inject_Z (Qfloor y))
    by (rewrite E; reflexivity).
  rewrite (Qcompare_comp _ _ E2 _ _ (Qeq_refl (1#2))). reflexivity.
Qed.

Lemma roundHalfEven_Z (n : Z) : roundHalfEven (inject_Z n) = n.
Proof.
  unfold roundHalfEven. rewrite Qfloor_Z.
  destruct (Qcompare (inject_Z n - inject_Z n) (1 # 2)) eqn:E.
  - apply Qeq_alt in E. lra.
  - reflexivity.
  - apply Qgt_alt in E. lra.
Qed.

Lemma roundHalfEven_le (x y : Q) :
  x <= y -> (roundHalfEven x <= roundHalfEven y)%Z.
Proof.
  intros Hxy.
  destruct (Z.le_gt_cases (roundHalfEven x) (roundHalfEven y)) as [H|H];
    [exact H|exfalso].
  destruct (roundHalfEven_bounds x) as [Hx1 Hx2].
  destruct (roundHalfEven_bounds y) as [Hy1 Hy2].
  assert (H1 : inject_Z (roundHalfEven y) + 1 <= inject_Z (roundHalfEven x)).
  { change 1 with (inject_Z 1) at 1. rewrite <- inject_Z_plus.
    rewrite <- Zle_Qle. lia. }
  assert (E : x == y) by lra.
  rewrite (roundHalfEven_comp x y E) in H. lia.
Qed.

Lemma two_neq_0 : ~ 2 == 0.
Proof. discriminate. Qed.

Lemma pow2_pos (z : Z) : 0 < 2 ^ z.
Proof. apply Qpower_0_lt. reflexivity. Qed.

Lemma pow2_succ (z : Z) : 2 ^ (z + 1) == 2 ^ z * 2.
Proof. rewrite Qpower_plus by exact two_neq_0. reflexivity. Qed.

Lemma log2_bounds (a : positive) :
  2 ^ Z.log2 (Zpos a) <= inject_Z (Zpos a) /\
  inject_Z (Zpos a) < 2 ^ Z.log2 (Zpos a) * 2.
Proof.
  destruct (Z.log2_spec (Zpos a) ltac:(lia)) as [H1 H2].
  pose proof (Z.log2_nonneg (Zpos a)) as H0.
  rewrite <- pow2_succ.
  rewrite <- !(Zpower_Qpower 2) by lia.
  rewrite <- Zle_Qle, <- Zlt_Qlt. unfold Z.succ in H2. split; assumption.
Qed.

Lemma floorLog2_spec (a b : positive) :
  2 ^ floorLog2 a b <= Zpos a # b /\ Zpos a # b < 2 ^ (floorLog2 a b + 1).
Proof.
  unfold floorLog2.
  destruct (log2_bounds a) as [Ha1 Ha2]. destruct (log2_bounds b) as [Hb1 Hb2].
  set (la := Z.log2 (Zpos a)) in *. set (lb := Z.log2 (Zpos b)) in *.
  assert (Hk : 2 ^ (la - lb) * 2 ^ lb == 2 ^ la).
  { rewrite <- Qpower_plus by exact two_neq_0. f_equiv. lia. }
  assert (Hx : (Zpos a # b) * inject_Z (Zpos b) == inject_Z (Zpos a)).
  { rewrite (Qmake_Qdiv (Zpos a) b). field. discriminate. }
  pose proof (pow2_pos (la - lb)) as HK. pose proof (pow2_pos lb) as HPB.
  pose proof (pow2_pos la) as HPA.
  destruct (Qle_bool (2 ^ (la - lb)) (Zpos a # b)) eqn:E.
  - apply Qle_bool_iff in E. split; [exact E|].
    rewrite pow2_succ.
    generalize dependent (2 ^ (la - lb)). generalize dependent (2 ^ lb).
    generalize dependent (2 ^ la). generalize dependent (inject_Z (Zpos a)).
    generalize dependent (inject_Z (Zpos b)). generalize (Zpos a # b).
    intros. nra.
  - assert (E' : Zpos a # b < 2 ^ (la - lb)).
    { apply Qnot_le_lt. intros H. apply Qle_bool_iff in H. congruence. }
    replace (la - lb - 1 + 1)%Z with (la - lb)%Z by lia.
    split; [|exact E'].
    assert (Hh : 2 ^ (la - lb - 1) * 2 == 2 ^ (la - lb)).
    { rewrite <- pow2_succ. f_equiv. lia. }
    pose proof (pow2_pos (la - lb - 1)) as HH.
    generalize dependent (2 ^ (la - lb - 1)).
    generalize dependent (2 ^ (la - lb)). generalize dependent (2 ^ lb).
    generalize dependent (2 ^ la). generalize dependent (inject_Z (Zpos a)).
    generalize dependent (inject_Z (Zpos b)). generalize (Zpos a # b).
    intros. nra.
Qed.

Lemma pow2_inv (e : Z) : 2 ^ (- e) * 2 ^ e == 1.
Proof.
  rewrite <- Qpower_plus by exact two_neq_0.
  replace (- e + e)%Z with 0%Z by lia. reflexivity.
Qed.

Lemma pow2_split (l : Z) : 2 ^ (l - 52) * 4503599627370496 == 2 ^ l.
Proof.
  change 4503599627370496 with (2 ^ 52).
  rewrite <- Qpower_plus by exact two_neq_0. f_equiv. lia.
Qed.

Lemma roundPos_error (a b : positive) :
  (Zpos a # b) - (Zpos a # b) * u <= roundPos a b /\
  roundPos a b <= (Zpos a # b) + (Zpos a # b) * u.
Proof.
  unfold roundPos, u.
  destruct (floorLog2_spec a b) as [Hlo _].
  set (l := floorLog2 a b) in *. set (x := Zpos a # b) in *.
  pose proof (pow2_inv (l - 52)) as Hinv.
  pose proof (pow2_split l) as Hsplit.
  pose proof (pow2_pos (l - 52)) as HP.
  destruct (roundHalfEven_bounds (x * 2 ^ (- (l - 52)))) as [H1 H2].
  generalize dependent (inject_Z (roundHalfEven (x * 2 ^ (- (l - 52))))).
  generalize dependent (2 ^ (- (l - 52))). generalize dependent (2 ^ (l - 52)).
  generalize dependent (2 ^ l). generalize dependent x.
  intros x pl Hlo p HP Hsplit q Hinv m H1 H2.
  assert (Hy : x * q * p == x) by (rewrite <- Qmult_assoc, Hinv; ring).
  split; nra.
Qed.

Lemma roundPos_range (a b : positive) :
  2 ^ floorLog2 a b <= roundPos a b /\
  roundPos a b <= 2 ^ (floorLog2 a b + 1).
Proof.
  unfold roundPos.
  destruct (floorLog2_spec a b) as [Hlo Hhi].
  set (l := floorLog2 a b) in *. set (x := Zpos a # b) in *.
  pose proof (pow2_inv (l - 52)) as Hinv.
  pose proof (pow2_split l) as Hsplit.
  pose proof (pow2_pos (l - 52)) as HP.
  rewrite pow2_succ in Hhi |- *.
  assert (Hm1 : (4503599627370496 <= roundHalfEven (x * 2 ^ (- (l - 52))))%Z).
  { rewrite <- (roundHalfEven_Z 4503599627370496).
    apply roundHalfEven_le.
    pose proof (pow2_pos (- (l - 52))) as HQ.
    change (inject_Z 4503599627370496) with 4503599627370496.
    generalize dependent (2 ^ (- (l - 52))).
    generalize dependent (2 ^ (l - 52)). generalize dependent (2 ^ l).
    generalize dependent x. intros. nra. }
  assert (Hm2 : (roundHalfEven (x * 2 ^ (- (l - 52))) <= 9007199254740992)%Z).
  { rewrite <- (roundHalfEven_Z 9007199254740992).
    apply roundHalfEven_le.
    pose proof (pow2_pos (- (l - 52))) as HQ.
    change (inject_Z 9007199254740992) with 9007199254740992.
    generalize dependent (2 ^ (- (l - 52))).
    generalize dependent (2 ^ (l - 52)). generalize dependent (2 ^ l).
    generalize dependent x. intros. nra. }
  rewrite Zle_Qle in Hm1, Hm2.
  change (inject_Z 4503599627370496) with 4503599627370496 in Hm1.
  change (inject_Z 9007199254740992) with 9007199254740992 in Hm2.
  generalize dependent (inject_Z (roundHalfEven (x * 2 ^ (- (l - 52))))).
  generalize dependent (2 ^ (l - 52)). generalize dependent (2 ^ l).
  intros. split; nra.
Qed.

Lemma roundPos_le (a b a' b' : positive) :
  Zpos a # b <= Zpos a' # b' -> roundPos a b <= roundPos a' b'.
Proof.
  intros Hxy.
  destruct (floorLog2_spec a b) as [Hlo Hhi].
  destruct (floorLog2_spec a' b') as [Hlo' Hhi'].
  assert (Hl : (floorLog2 a b <= floorLog2 a' b')%Z).
  { assert (H : 2 ^ floorLog2 a b < 2 ^ (floorLog2 a' b' + 1)).
    { eapply Qle_lt_trans; [exact Hlo|].
      eapply Qle_lt_trans; [exact Hxy|exact Hhi']. }
    apply Qpower_lt_compat_l_inv in H; [lia|reflexivity]. }
  destruct (Z.eq_dec (floorLog2 a b) (floorLog2 a' b')) as [E|N].
  - unfold roundPos. rewrite <- E.
    apply Qmult_le_compat_r; [|apply Qlt_le_weak, pow2_pos].
    rewrite <- Zle_Qle. apply roundHalfEven_le.
    apply Qmult_le_compat_r; [exact Hxy|apply Qlt_le_weak, pow2_pos].
  - destruct (roundPos_range a b) as [_ H1].
    destruct (roundPos_range a' b') as [H2 _].
    eapply Qle_trans; [exact H1|]. eapply Qle_trans; [|exact H2].
    apply Qpower_le_compat_l; [lia|discriminate].
Qed.

Lemma roundPos_pos (a b : positive) : 0 < roundPos a b.
Proof.
  destruct (roundPos_range a b) as [H _].
  eapply Qlt_le_trans; [apply pow2_pos|exact H].
Qed.

Lemma round_comp (x y : Q) : x == y -> round x = round y.
Proof. intros E. unfold round. rewrite (Qred_complete x y E). reflexivity. Qed.

Lemma round_cases (q : Q) :
  (q == 0 /\ round q = 0) \/
  (exists a b, q == Zpos a # b /\ round q = roundPos a b) \/
  (exists a b, q == - (Zpos a # b) /\ round q = - roundPos a b).
Proof.
  unfold round. pose proof (Qred_correct q) as E.
  destruct (Qred q) as [[|a|a] b].
  - left. split; [rewrite <- E|]; reflexivity.
  - right. left. exists a, b. split; [rewrite <- E|]; reflexivity.
  - right. right. exists a, b. split; [rewrite <- E|]; reflexivity.
Qed.

Lemma Qmake_pos (a b : positive) : 0 < Zpos a # b.
Proof. reflexivity. Qed.

Lemma round_0 : round 0 = 0.
Proof. reflexivity. Qed.

Lemma round_sign (q : Q) :
  (0 <= q -> 0 <= round q) /\ (q <= 0 -> round q <= 0).
Proof.
  destruct (round_cases q) as [[E ->]|[[a [b [E ->]]]|[a [b [E ->]]]]];
    pose proof (Qmake_pos a b) as Hp || idtac.
  - split; intros; apply Qle_refl.
  - pose proof (roundPos_pos a b). split; intros; lra.
  - pose proof (roundPos_pos a b). split; intros; lra.
Qed.

Lemma round_error (q : Q) : Qabs (round q - q) <= Qabs q * u.
Proof.
  destruct (round_cases q) as [[E ->]|[[a [b [E ->]]]|[a [b [E ->]]]]].
  - rewrite E. discriminate.
  - rewrite E. destruct (roundPos_error a b) as [H1 H2].
    pose proof (Qmake_pos a b) as Hp.
    rewrite (Qabs_pos (Zpos a # b)) by lra.
    apply Qabs_Qle_condition. split; lra.
  - rewrite E. destruct (roundPos_error a b) as [H1 H2].
    pose proof (Qmake_pos a b) as Hp.
    rewrite (Qabs_neg (- (Zpos a # b))) by lra.
    apply Qabs_Qle_condition. split; lra.
Qed.

Lemma round_near (q B : Q) :
  - B <= q <= B -> q - B * u <= round q <= q + B * u.
Proof.
  intros [H1 H2]. pose proof (round_error q) as He.
  assert (Ha : Qabs q <= B) by (apply Qabs_Qle_condition; split; assumption).
  assert (Hb : Qabs (round q - q) <= B * u).
  { eapply Qle_trans; [exact He|].
    apply Qmult_le_compat_r; [exact Ha|discriminate]. }
  apply Qabs_Qle_condition in Hb. split; lra.
Qed.

Lemma round_le (x y : Q) : x <= y -> round x <= round y.
Proof.
  intros Hxy.
  destruct (round_cases x) as [[Ex ->]|[[a [b [Ex ->]]]|[a [b [Ex ->]]]]];
  destruct (round_cases y) as [[Ey ->]|[[c [d [Ey ->]]]|[c [d [Ey ->]]]]];
    try pose proof (Qmake_pos a b) as Hab;
    try pose proof (Qmake_pos c d) as Hcd;
    try pose proof (roundPos_pos a b) as Rab;
    try pose proof (roundPos_pos c d) as Rcd;
    try lra.
  - apply roundPos_le. lra.
  - assert (H : roundPos c d <= roundPos a b) by (apply roundPos_le; lra).
    lra.
Qed.

(** The numbers 0, 1 and 2 are doubles. *)
Lemma round_1 : round 1 == 1.
Proof. vm_compute. reflexivity. Qed.

Lemma round_unit (q : Q) : 0 <= q <= 1 -> 0 <= round q <= 1.
Proof.
  intros [H0 H1]. split.
  - apply round_sign, H0.
  - rewrite <- round_1. apply round_le, H1.
Qed.

End DoubleFacts.

(** ** Facts about the scorer, for any three word lists *)

Lemma includes_In (xs : list string) (w : string) :
  JS.includes xs w = true <-> In w xs.
Proof.
  unfold JS.includes. rewrite existsb_exists. split.
  - intros [x [Hx E]]. apply String.eqb_eq in E. now subst.
  - intros H. exists w. split; [exact H|apply String.eqb_refl].
Qed.

Lemma includes_not_In (xs : list string) (w : string) :
  JS.includes xs w = false <-> ~ In w xs.
Proof.
  rewrite <- includes_In. destruct (JS.includes xs w); split; congruence.
Qed.

Section ScorerFacts.

Variables P N U : list string.

Lemma fold_countWord (ws : list string) (c : Counts) :
  fold_left (Scorer.countWord P N U) ws c
  = mkCounts (positiveCount c + countIf (hitsPositive P) ws)
             (negativeCount c + countIf (hitsNegative P N) ws)
             (neutralCount c + countIf (hitsNeutral P N U) ws).
Proof.
  revert c. induction ws as [|w ws IH]; intros [p n u]; simpl.
  - unfold countIf. simpl. rewrite !Nat.add_0_r. reflexivity.
  - rewrite IH. unfold Scorer.countWord, countIf, hitsPositive, hitsNegative,
      hitsNeutral. simpl.
    destruct (JS.includes P w); simpl;
      [|destruct (JS.includes N w); simpl;
        [|destruct (JS.includes U w); simpl]];
      f_equal; lia.
Qed.

Lemma countWords_countIf (ws : list string) :
  Scorer.countWords P N U ws
  = mkCounts (countIf (hitsPositive P) ws) (countIf (hitsNegative P N) ws)
             (countIf (hitsNeutral P N U) ws).
Proof. unfold Scorer.countWords. rewrite fold_countWord. reflexivity. Qed.

Lemma countIf_sum (ws : list string) :
  (countIf (hitsPositive P) ws + countIf (hitsNegative P N) ws
   + countIf (hitsNeutral P N U) ws <= List.length ws)%nat.
Proof.
  unfold countIf, hitsPositive, hitsNegative, hitsNeutral.
  induction ws as [|w ws IH]; simpl; [lia|].
  destruct (JS.includes P w), (JS.includes N w), (JS.includes U w);
    simpl; lia.
Qed.

Lemma countWords_sum (ws : list string) :
  (positiveCount (Scorer.countWords P N U ws)
   + negativeCount (Scorer.countWords P N U ws)
   + neutralCount (Scorer.countWords P N U ws) <= List.length ws)%nat.
Proof. rewrite countWords_countIf. simpl. apply countIf_sum. Qed.

Lemma countTag_tagWord (ws : list string) :
  countTag Positive (map (Scorer.tagWord P N U) ws) = countIf (hitsPositive P) ws
  /\ countTag Negative (map (Scorer.tagWord P N U) ws)
     = countIf (hitsNegative P N) ws.
Proof.
  unfold countTag, countIf, hitsPositive, hitsNegative, Scorer.tagWord.
  induction ws as [|w ws [IHp IHn]]; simpl; [auto|].
  destruct (JS.includes P w), (JS.includes N w), (JS.includes U w);
    simpl; rewrite ?IHp, ?IHn; auto.
Qed.

(** The four outcomes of the three-way [if], with the value each returns. *)
Lemma label_cases (c : Counts) (total : nat) :
  (positiveCount c + negativeCount c + neutralCount c <= total)%nat ->
  let p := positiveCount c in
  let n := negativeCount c in
  let u := neutralCount c in
  ((n < p /\ u < p)%nat /\
   Scorer.label c total
   = Some (Positive, Qmin 0.9 (ofNat p / ofNat total * 2)))
  \/ (~ (n < p /\ u < p)%nat /\ (p < n /\ u < n)%nat /\
      Scorer.label c total
      = Some (Negative, Qmin 0.9 (ofNat n / ofNat total * 2)))
  \/ (~ (n < p /\ u < p)%nat /\ ~ (p < n /\ u < n)%nat /\
      (p + n + u = 0)%nat /\
      Scorer.label c total = Some (Neutral, 0.5%Q))
  \/ (~ (n < p /\ u < p)%nat /\ ~ (p < n /\ u < n)%nat /\
      (p + n + u <> 0)%nat /\
      Scorer.label c total
      = Some (Neutral, Qmin 0.8 (0.3 + ofNat u / ofNat total))).
Proof.
  destruct c as [p n u]. simpl. intros Hsum. unfold Scorer.label. simpl.
  destruct (n <? p)%nat eqn:E1; [destruct (u <? p)%nat eqn:E2|]; simpl.
  - apply Nat.ltb_lt in E1, E2. left. split; [lia|].
    rewrite divide_ofNat by lia. reflexivity.
  - apply Nat.ltb_lt in E1. apply Nat.ltb_ge in E2.
    right. replace (p <? n)%nat with false by (symmetry; apply Nat.ltb_ge; lia).
    simpl. right. destruct (p + n + u =? 0)%nat eqn:E3.
    + apply Nat.eqb_eq in E3. lia.
    + apply Nat.eqb_neq in E3. right. repeat split; try lia.
      rewrite divide_ofNat by lia. reflexivity.
  - apply Nat.ltb_ge in E1. right.
    destruct (p <? n)%nat eqn:E4; [destruct (u <? n)%nat eqn:E5|]; simpl.
    + apply Nat.ltb_lt in E4, E5. left. repeat split; try lia.
      rewrite divide_ofNat by lia. reflexivity.
    + apply Nat.ltb_lt in E4. apply Nat.ltb_ge in E5. right.
      destruct (p + n + u =? 0)%nat eqn:E3.
      * apply Nat.eqb_eq in E3. lia.
      * apply Nat.eqb_neq in E3. right. repeat split; try lia.
        rewrite divide_ofNat by lia. reflexivity.
    + apply Nat.ltb_ge in E4. right.
      destruct (p + n + u =? 0)%nat eqn:E3.
      * apply Nat.eqb_eq in E3. left. repeat split; lia.
      * apply Nat.eqb_neq in E3. right. repeat split; try lia.
        rewrite divide_ofNat by lia. reflexivity.
Qed.

(** What the scorer returns on input that is not blank. *)
Lemma analyze_nonblank (now : Z) (inputText : string) :
  JS.trim inputText <> "" ->
  let c := Scorer.countWords P N U (tokenize inputText) in
  let total := List.length (tokenize inputText) in
  exists sc,
    Scorer.label c total = Some sc /\
    Scorer.analyzeSentiment P N U now inputText
    = Some {| sentiment := fst sc;
              confidence := snd sc;
              positiveScore := ofNat (positiveCount c) / ofNat total;
              negativeScore := ofNat (negativeCount c) / ofNat total;
              neutralScore := 1 - ofNat (positiveCount c) / ofNat total
                              - ofNat (negativeCount c) / ofNat total;
              wordCount := total;
              timestamp := now |}.
Proof.
  intros Hne c total.
  pose proof (countWords_sum (tokenize inputText)) as Hsum.
  pose proof (tokenize_length_pos inputText) as Hpos.
  fold c total in Hsum, Hpos.
  assert (Hsome : exists sc, Scorer.label c total = Some sc).
  { destruct (label_cases c total Hsum)
      as [[_ H]|[[_ [_ H]]|[[_ [_ [_ H]]]|[_ [_ [_ H]]]]]]; eauto. }
  destruct Hsome as [sc Hsc]. exists sc. split; [exact Hsc|].
  unfold Scorer.analyzeSentiment.
  destruct (JS.truthy (JS.trim inputText)) eqn:Et.
  - simpl. unfold tokenize in *. fold c total. rewrite Hsc.
    replace (Nat.max total 1) with total by lia.
    rewrite !divide_ofNat by exact Hpos. reflexivity.
  - apply truthy_trim_false in Et. contradiction.
Qed.

Lemma analyze_blank (now : Z) (inputText : string) :
  JS.trim inputText = "" ->
  Scorer.analyzeSentiment P N U now inputText = Some (emptyDefault now).
Proof.
  intros H. unfold Scorer.analyzeSentiment. rewrite H. reflexivity.
Qed.

End ScorerFacts.

(** ** Facts about the shipped word lists *)

Lemma lexicon_disjoint (w : string) :
  (In w positiveWords -> ~ In w negativeWords /\ ~ In w neutralWords) /\
  (In w negativeWords -> ~ In w neutralWords).
Proof.
  assert (HP : forallb (fun x => negb (JS.includes negativeWords x)
                                 && negb (JS.includes neutralWords x))
                       positiveWords = true) by (vm_compute; reflexivity).
  assert (HN : forallb (fun x => negb (JS.includes neutralWords x))
                       negativeWords = true) by (vm_compute; reflexivity).
  rewrite forallb_forall in HP, HN. split; intros Hw.
  - specialize (HP w Hw). apply andb_true_iff in HP. destruct HP as [H1 H2].
    apply negb_true_iff in H1, H2.
    split; apply includes_not_In; assumption.
  - specialize (HN w Hw). apply negb_true_iff in HN.
    apply includes_not_In; assumption.
Qed.

Lemma counts_blank (inputText : string) :
  JS.trim inputText = "" -> counts inputText = mkCounts 0 0 0.
Proof.
  intros H. apply trim_blank in H. unfold counts.
  rewrite (tokenize_blank inputText H).
  destruct inputText; vm_compute; reflexivity.
Qed.

Lemma trim_dec (s : string) : {JS.trim s = ""} + {JS.trim s <> ""}.
Proof. destruct (JS.trim s); [left; reflexivity|right; discriminate]. Qed.

Lemma ofNat_zero_div (q : Q) : (0 == ofNat 0 / q)%Q.
Proof. unfold ofNat. simpl. unfold Qdiv. rewrite Qmult_0_l. reflexivity. Qed.

Lemma fraction_nonneg (m n : nat) : (0 <= ofNat m / ofNat n)%Q.
Proof.
  destruct n as [|n].
  - unfold Qdiv, ofNat. simpl. rewrite Qmult_0_r. apply Qle_refl.
  - apply Qle_shift_div_l; [apply ofNat_pos; lia|].
    rewrite Qmult_0_l. apply ofNat_nonneg.
Qed.

Lemma ofNat_add (a b : nat) : (ofNat (a + b) == ofNat a + ofNat b)%Q.
Proof. unfold ofNat. rewrite Nat2Z.inj_add, inject_Z_plus. reflexivity. Qed.

Lemma ofNat_neq_0 (n : nat) : (1 <= n)%nat -> ~ ofNat n == 0.
Proof.
  intros H E. pose proof (ofNat_pos n H) as Hlt.
  rewrite E in Hlt. exact (Qlt_irrefl 0 Hlt).
Qed.

Lemma fraction_sum3 (p n u total : nat) :
  (p + n + u <= total)%nat -> (1 <= total)%nat ->
  ofNat u / ofNat total <= 1 - ofNat p / ofNat total - ofNat n / ofNat total.
Proof.
  intros Hsum Hpos.
  destruct (fraction_bounds (p + n + u) total Hsum Hpos) as [_ H1].
  assert (Hadd : ofNat (p + n + u) / ofNat total
                 == ofNat p / ofNat total + ofNat n / ofNat total
                    + ofNat u / ofNat total).
  { rewrite !ofNat_add. field. apply ofNat_neq_0, Hpos. }
  rewrite Hadd in H1. lra.
Qed.

(** The shipped scorer on input that is not blank: the label and confidence
    come from [Scorer.label], the scores are the hit fractions. *)
Lemma classify_nonblank (now : Z) (inputText : string) :
  JS.trim inputText <> "" ->
  exists sc,
    Scorer.label (counts inputText) (totalWords inputText) = Some sc /\
    analyzeSentiment now inputText
    = Some {| sentiment := fst sc;
              confidence := snd sc;
              positiveScore := ofNat (positiveCount (counts inputText))
                               / ofNat (totalWords inputText);
              negativeScore := ofNat (negativeCount (counts inputText))
                               / ofNat (totalWords inputText);
              neutralScore := 1 - ofNat (positiveCount (counts inputText))
                                  / ofNat (totalWords inputText)
                              - ofNat (negativeCount (counts inputText))
                                / ofNat (totalWords inputText);
              wordCount := totalWords inputText;
              timestamp := now |}.
Proof.
  intros Hne.
  exact (analyze_nonblank positiveWords negativeWords neutralWords
           now inputText Hne).
Qed.

Lemma counts_sum (inputText : string) :
  (positiveCount (counts inputText) + negativeCount (counts inputText)
   + neutralCount (counts inputText) <= totalWords inputText)%nat.
Proof.
  exact (countWords_sum positiveWords negativeWords neutralWords
           (tokenize inputText)).
Qed.

Lemma totalWords_pos (inputText : string) : (1 <= totalWords inputText)%nat.
Proof. apply tokenize_length_pos. Qed.

Lemma classify_blank (now : Z) (inputText : string) :
  JS.trim inputText = "" ->
  analyzeSentiment now inputText = Some (emptyDefault now).
Proof.
  exact (analyze_blank positiveWords negativeWords neutralWords now inputText).
Qed.

(** The caps of the confidence: 0.9 in general, 0.8 under the neutral
    label. *)
Lemma label_confidence_bounds (c : Counts) (total : nat) (sc : Sentiment * Q) :
  (positiveCount c + negativeCount c + neutralCount c <= total)%nat ->
  Scorer.label c total = Some sc ->
  0 <= snd sc <= 0.9 /\ (fst sc = Neutral -> snd sc <= 0.8).
Proof.
  intros Hsum Hsc.
  assert (Hfp : 0 <= ofNat (positiveCount c) / ofNat total * 2).
  { apply Qmult_le_0_compat; [apply fraction_nonneg|discriminate]. }
  assert (Hfn : 0 <= ofNat (negativeCount c) / ofNat total * 2).
  { apply Qmult_le_0_compat; [apply fraction_nonneg|discriminate]. }
  assert (Hfu : 0 <= 0.3 + ofNat (neutralCount c) / ofNat total).
  { apply (Qle_trans _ (0.3 + 0)); [discriminate|].
    apply Qplus_le_r, fraction_nonneg. }
  destruct (label_cases c total Hsum)
    as [[_ H]|[[_ [_ H]]|[[_ [_ [_ H]]]|[_ [_ [_ H]]]]]];
    rewrite H in Hsc; injection Hsc as <-; simpl.
  - split; [apply Qmin_bounds; [discriminate|exact Hfp]|discriminate].
  - split; [apply Qmin_bounds; [discriminate|exact Hfn]|discriminate].
  - repeat split; intros; discriminate.
  - pose proof (Qmin_bounds 0.8 _ ltac:(discriminate) Hfu) as [Hb0 Hb1].
    repeat split; auto.
    apply (Qle_trans _ 0.8); [exact Hb1|discriminate].
Qed.

(** ** Facts about the rounded scorer *)

Lemma div64_ofNat (a : Q) (n : nat) :
  (1 <= n)%nat ->
  Double.div a (ofNat n) = Some (Double.round (a / ofNat n)).
Proof.
  intros H. unfold Double.div.
  destruct (Qeq_bool (ofNat n) 0) eqn:E; [|reflexivity].
  apply Qeq_bool_eq in E. pose proof (ofNat_pos n H) as Hp.
  rewrite E in Hp. exfalso. exact (Qlt_irrefl 0 Hp).
Qed.

(** The four outcomes of the three-way [if] in the rounded scorer. *)
Lemma label64_cases (c : Counts) (total : nat) :
  (positiveCount c + negativeCount c + neutralCount c <= total)%nat ->
  let p := positiveCount c in
  let n := negativeCount c in
  let u := neutralCount c in
  ((n < p /\ u < p)%nat /\
   Scorer.label64 c total
   = Some (Positive,
           Qmin (Double.literal 0.9)
                (Double.mul (Double.round (ofNat p / ofNat total)) 2)))
  \/ (~ (n < p /\ u < p)%nat /\ (p < n /\ u < n)%nat /\
      Scorer.label64 c total
      = Some (Negative,
              Qmin (Double.literal 0.9)
                   (Double.mul (Double.round (ofNat n / ofNat total)) 2)))
  \/ (~ (n < p /\ u < p)%nat /\ ~ (p < n /\ u < n)%nat /\
      (p + n + u = 0)%nat /\
      Scorer.label64 c total = Some (Neutral, Double.literal 0.5))
  \/ (~ (n < p /\ u < p)%nat /\ ~ (p < n /\ u < n)%nat /\
      (p + n + u <> 0)%nat /\
      Scorer.label64 c total
      = Some (Neutral,
              Qmin (Double.literal 0.8)
                   (Double.add (Double.literal 0.3)
                               (Double.round (ofNat u / ofNat total))))).
Proof.
  destruct c as [p n u]. simpl. intros Hsum. unfold Scorer.label64. simpl.
  destruct (n <? p)%nat eqn:E1; [destruct (u <? p)%nat eqn:E2|]; simpl.
  - apply Nat.ltb_lt in E1, E2. left. split; [lia|].
    rewrite div64_ofNat by lia. reflexivity.
  - apply Nat.ltb_lt in E1. apply Nat.ltb_ge in E2.
    right. replace (p <? n)%nat with false by (symmetry; apply Nat.ltb_ge; lia).
    simpl. right. destruct (p + n + u =? 0)%nat eqn:E3.
    + apply Nat.eqb_eq in E3. lia.
    + apply Nat.eqb_neq in E3. right. repeat split; try lia.
      rewrite div64_ofNat by lia. reflexivity.
  - apply Nat.ltb_ge in E1. right.
    destruct (p <? n)%nat eqn:E4; [destruct (u <? n)%nat eqn:E5|]; simpl.
    + apply Nat.ltb_lt in E4, E5. left. repeat split; try lia.
      rewrite div64_ofNat by lia. reflexivity.
    + apply Nat.ltb_lt in E4. apply Nat.ltb_ge in E5. right.
      destruct (p + n + u =? 0)%nat eqn:E3.
      * apply Nat.eqb_eq in E3. lia.
      * apply Nat.eqb_neq in E3. right. repeat split; try lia.
        rewrite div64_ofNat by lia. reflexivity.
    + apply Nat.ltb_ge in E4. right.
      destruct (p + n + u =? 0)%nat eqn:E3.
      * apply Nat.eqb_eq in E3. left. repeat split; lia.
      * apply Nat.eqb_neq in E3. right. repeat split; try lia.
        rewrite div64_ofNat by lia. reflexivity.
Qed.

(** The rounded label is the exact one, and the rounded confidence lies in
    [0, 0.9]. *)
Lemma label64_bounds (c : Counts) (total : nat) :
  (positiveCount c + negativeCount c + neutralCount c <= total)%nat ->
  exists sc sc64,
    Scorer.label c total = Some sc /\
    Scorer.label64 c total = Some sc64 /\
    fst sc64 = fst sc /\
    0 <= snd sc64 <= Double.literal 0.9.
Proof.
  intros Hsum.
  assert (Hmul : forall m, 0 <= Double.mul (Double.round (ofNat m / ofNat total)) 2).
  { intros m. unfold Double.mul. apply DoubleFacts.round_sign.
    apply Qmult_le_0_compat; [|discriminate].
    apply DoubleFacts.round_sign, fraction_nonneg. }
  assert (Hadd : forall m, 0 <= Double.add (Double.literal 0.3)
                                  (Double.round (ofNat m / ofNat total))).
  { intros m. unfold Double.add. apply DoubleFacts.round_sign.
    pose proof (proj1 (DoubleFacts.round_sign (ofNat m / ofNat total))
                  (fraction_nonneg m total)) as H.
    assert (H3 : 0 <= Double.literal 0.3) by (vm_compute; discriminate).
    lra. }
  assert (H9 : 0 <= Double.literal 0.9 <= Double.literal 0.9)
    by (split; vm_compute; discriminate).
  assert (H8 : 0 <= Double.literal 0.8 <= Double.literal 0.9)
    by (split; vm_compute; discriminate).
  assert (H5 : 0 <= Double.literal 0.5 <= Double.literal 0.9)
    by (split; vm_compute; discriminate).
  destruct (label_cases c total Hsum)
    as [[Hp H]|[[Hnp [Hn H]]|[[Hnp [Hnn [Hz H]]]|[Hnp [Hnn [Hz H]]]]]];
  destruct (label64_cases c total Hsum)
    as [[Hp' H']|[[Hnp' [Hn' H']]|[[Hnp' [Hnn' [Hz' H']]]|[Hnp' [Hnn' [Hz' H']]]]]];
    try contradiction; try lia;
    do 2 eexists; (split; [exact H|]); (split; [exact H'|]);
    (split; [reflexivity|]); cbn [snd].
  - split; [apply Q.min_glb; [apply H9|apply Hmul]|].
    eapply Qle_trans; [apply Q.le_min_l|apply H9].
  - split; [apply Q.min_glb; [apply H9|apply Hmul]|].
    eapply Qle_trans; [apply Q.le_min_l|apply H9].
  - exact H5.
  - split; [apply Q.min_glb; [apply H8|apply Hadd]|].
    eapply Qle_trans; [apply Q.le_min_l|apply H8].
Qed.

(** What the rounded scorer returns on input that is not blank. *)
Lemma classify64_nonblank (now : Z) (inputText : string) :
  JS.trim inputText <> "" ->
  exists sc sc64,
    Scorer.label (counts inputText) (totalWords inputText) = Some sc /\
    fst sc64 = fst sc /\ 0 <= snd sc64 <= Double.literal 0.9 /\
    analyzeSentiment64 now inputText
    = Some {| sentiment := fst sc64;
              confidence := snd sc64;
              positiveScore :=
                Double.round (ofNat (positiveCount (counts inputText))
                              / ofNat (totalWords inputText));
              negativeScore :=
                Double.round (ofNat (negativeCount (counts inputText))
                              / ofNat (totalWords inputText));
              neutralScore :=
                Double.sub
                  (Double.sub 1
                     (Double.round (ofNat (positiveCount (counts inputText))
                                    / ofNat (totalWords inputText))))
                  (Double.round (ofNat (negativeCount (counts inputText))
                                 / ofNat (totalWords inputText)));
              wordCount := totalWords inputText;
              timestamp := now |}.
Proof.
  intros Hne.
  destruct (label64_bounds _ _ (counts_sum inputText))
    as [sc [sc64 [Hsc [Hsc64 [Hfst Hb]]]]].
  exists sc, sc64. split; [exact Hsc|]. split; [exact Hfst|].
  split; [exact Hb|].
  pose proof (totalWords_pos inputText) as Hpos.
  unfold analyzeSentiment64, Scorer.analyzeSentiment64.
  destruct (JS.truthy (JS.trim inputText)) eqn:Et.
  - cbn [negb]. cbv zeta.
    change (Scorer.countWords positiveWords negativeWords neutralWords
              (Scorer.tokenize inputText)) with (counts inputText).
    change (List.length (Scorer.tokenize inputText))
      with (totalWords inputText).
    rewrite Hsc64.
    replace (Nat.max (totalWords inputText) 1) with (totalWords inputText)
      by lia.
    rewrite !div64_ofNat by exact Hpos. reflexivity.
  - apply truthy_trim_false in Et. contradiction.
Qed.

Lemma classify64_blank (now : Z) (inputText : string) :
  JS.trim inputText = "" ->
  analyzeSentiment64 now inputText = Some (emptyDefault now).
Proof.
  intros H. unfold analyzeSentiment64, Scorer.analyzeSentiment64.
  rewrite H. reflexivity.
Qed.

(** The rounded scores: both polar scores lie in [0, 1]; the residual is at
    most 1 and misses the exact residual by at most four unit round-offs;
    the three scores add up to 1 up to rounding, whether the sum is taken
    exactly or in doubles. *)
Lemma scores64_bounds (p n total : nat) :
  (p + n <= total)%nat -> (1 <= total)%nat ->
  let ps := Double.round (ofNat p / ofNat total) in
  let ns := Double.round (ofNat n / ofNat total) in
  let nu := Double.sub (Double.sub 1 ps) ns in
  0 <= ps <= 1 /\ 0 <= ns <= 1 /\ nu <= 1 /\
  ofNat p / ofNat total - Double.u <= ps <= ofNat p / ofNat total + Double.u /\
  ofNat n / ofNat total - Double.u <= ns <= ofNat n / ofNat total + Double.u /\
  1 - ps - ns - 2 * Double.u <= nu <= 1 - ps - ns + 2 * Double.u /\
  1 - 2 * Double.u <= ps + ns + nu <= 1 + 2 * Double.u /\
  1 - 8 * Double.u <= Double.add (Double.add ps ns) nu <= 1 + 8 * Double.u.
Proof.
  intros Hsum Hpos ps ns nu.
  destruct (fraction_bounds p total ltac:(lia) Hpos) as [Hp0 Hp1].
  destruct (fraction_bounds n total ltac:(lia) Hpos) as [Hn0 Hn1].
  assert (Hps : 0 <= ps <= 1) by (apply DoubleFacts.round_unit; split; assumption).
  assert (Hns : 0 <= ns <= 1) by (apply DoubleFacts.round_unit; split; assumption).
  pose proof (DoubleFacts.round_near (ofNat p / ofNat total) 1
                ltac:(split; lra)) as Eps. fold ps in Eps.
  pose proof (DoubleFacts.round_near (ofNat n / ofNat total) 1
                ltac:(split; lra)) as Ens. fold ns in Ens.
  assert (Ha : 0 <= Double.sub 1 ps <= 1).
  { apply DoubleFacts.round_unit. split; lra. }
  pose proof (DoubleFacts.round_near (1 - ps) 1 ltac:(split; lra)) as Ea.
  fold (Double.sub 1 ps) in Ea.
  pose proof (DoubleFacts.round_near (Double.sub 1 ps - ns) 1
                ltac:(split; lra)) as Enu.
  fold (Double.sub (Double.sub 1 ps) ns) in Enu. fold nu in Enu.
  assert (Hnu1 : nu <= 1).
  { apply (Qle_trans _ (Double.round 1)).
    - apply (DoubleFacts.round_le (Double.sub 1 ps - ns) 1). lra.
    - rewrite DoubleFacts.round_1. apply Qle_refl. }
  pose proof (DoubleFacts.round_near (ps + ns) 2 ltac:(split; lra)) as Es1.
  fold (Double.add ps ns) in Es1.
  assert (Hu : Double.u == 1 # 9007199254740992) by reflexivity.
  pose proof (DoubleFacts.round_near (Double.add ps ns + nu) 4
                ltac:(split; lra)) as Es.
  fold (Double.add (Double.add ps ns) nu) in Es.
  repeat split; lra.
Qed.

Lemma concat_empty_sep (l : list string) :
  String.concat "" l = fold_right append "" l.
Proof.
  induction l as [|x l IH]; simpl; [reflexivity|].
  destruct l as [|y l]; [simpl; rewrite append_empty_r; reflexivity|].
  rewrite IH. reflexivity.
Qed.

(** * The claims *)

(** C1.  On input that is not blank the label is positive exactly when
    positiveCount exceeds both other counters, negative exactly when
    negativeCount exceeds both other counters, and neutral in every other
    case; so a tie between the positive and the negative counter (the 0/0/0
    tie included) and a neutral counter that is not exceeded both give the
    neutral label. *)
Theorem classify_label_rule (now : Z) (inputText : string) :
  JS.trim inputText <> "" ->
  let p := positiveCount (counts inputText) in
  let n := negativeCount (counts inputText) in
  let u := neutralCount (counts inputText) in
  exists r,
    analyzeSentiment now inputText = Some r /\
    (sentiment r = Positive <-> (p > n /\ p > u)%nat) /\
    (sentiment r = Negative <-> (n > p /\ n > u)%nat) /\
    (sentiment r = Neutral <->
       ~ (p > n /\ p > u)%nat /\ ~ (n > p /\ n > u)%nat) /\
    (p = n -> sentiment r = Neutral) /\
    ((p <= u)%nat -> (n <= u)%nat -> sentiment r = Neutral).
Proof.
  intros Hne p n u.
  destruct (analyze_nonblank positiveWords negativeWords neutralWords
              now inputText Hne) as [sc [Hsc Hr]].
  pose proof (label_cases _ _
                (countWords_sum positiveWords negativeWords neutralWords
                   (tokenize inputText))) as Hcases.
  fold countWords in Hcases, Hsc, Hr.
  fold (counts inputText) in Hcases, Hsc, Hr.
  simpl in Hcases. fold p n u in Hcases.
  eexists. split; [exact Hr|]. simpl.
  unfold gt.
  destruct Hcases
    as [[Hp H]|[[Hnp [Hn H]]|[[Hnp [Hnn [_ H]]]|[Hnp [Hnn [_ H]]]]]];
    rewrite H in Hsc; injection Hsc as <-; simpl;
    repeat split; intros; try discriminate; try reflexivity; try lia;
    try tauto.
Qed.

(** The tie of [classify("good bad")] is labelled neutral. *)
Lemma classify_label_rule_witness :
  JS.trim "good bad" <> "" /\
  exists r, analyzeSentiment 0 "good bad" = Some r /\ sentiment r = Neutral.
Proof.
  assert (H : JS.trim "good bad" <> "") by (vm_compute; discriminate).
  split; [exact H|].
  destruct (classify_label_rule 0 "good bad" H)
    as [r [Hr [_ [_ [_ [Htie _]]]]]].
  exists r. split; [exact Hr|]. apply Htie. reflexivity.
Defined.

(** C2.  On blank input (its trim is empty, as for the empty string and for
    three spaces) the result is the empty-input default: neutral, confidence
    0, positiveScore 0, negativeScore 0, neutralScore 1, wordCount 0. *)
Theorem classify_blank_default (now : Z) (inputText : string) :
  JS.trim inputText = "" ->
  analyzeSentiment now inputText
  = Some {| sentiment := Neutral;
            confidence := 0;
            positiveScore := 0;
            negativeScore := 0;
            neutralScore := 1;
            wordCount := 0;
            timestamp := now |}.
Proof.
  intros H. exact (classify_blank now inputText H).
Qed.

Lemma classify_blank_default_witness :
  JS.trim "   " = "" /\
  analyzeSentiment 7 "   " = Some (emptyDefault 7) /\
  analyzeSentiment 7 "" = Some (emptyDefault 7).
Proof.
  split; [reflexivity|]. split.
  - exact (classify_blank_default 7 "   " eq_refl).
  - exact (classify_blank_default 7 "" eq_refl).
Defined.

(** C3.  On input that is not blank the confidence is
    min(0.9, positiveCount / totalWords * 2) under the positive label,
    min(0.9, negativeCount / totalWords * 2) under the negative label, 0.5
    under the neutral label when no counter moved, and
    min(0.8, 0.3 + neutralCount / totalWords) otherwise; it lies in
    [0, 0.9], and in [0, 0.8] under the neutral label. *)
Theorem classify_confidence (now : Z) (inputText : string) :
  JS.trim inputText <> "" ->
  let p := positiveCount (counts inputText) in
  let n := negativeCount (counts inputText) in
  let u := neutralCount (counts inputText) in
  let total := ofNat (totalWords inputText) in
  exists r,
    analyzeSentiment now inputText = Some r /\
    (sentiment r = Positive ->
       confidence r == Qmin 0.9 (ofNat p / total * 2)) /\
    (sentiment r = Negative ->
       confidence r == Qmin 0.9 (ofNat n / total * 2)) /\
    (sentiment r = Neutral -> (p + n + u = 0)%nat -> confidence r == 0.5) /\
    (sentiment r = Neutral -> (p + n + u <> 0)%nat ->
       confidence r == Qmin 0.8 (0.3 + ofNat u / total)) /\
    0 <= confidence r <= 0.9 /\
    (sentiment r = Neutral -> confidence r <= 0.8).
Proof.
  intros Hne p n u total.
  destruct (classify_nonblank now inputText Hne) as [sc [Hsc Hr]].
  pose proof (label_cases _ _ (counts_sum inputText)) as Hcases.
  destruct (label_confidence_bounds _ _ sc (counts_sum inputText) Hsc)
    as [Hb Hb8].
  simpl in Hcases. fold p n u total in Hcases.
  eexists. split; [exact Hr|]. simpl.
  destruct Hcases
    as [[Hp H]|[[Hnp [Hn H]]|[[Hnp [Hnn [Hz H]]]|[Hnp [Hnn [Hz H]]]]]];
    rewrite H in Hsc; injection Hsc as <-; simpl in *;
    repeat split; intros; try discriminate; try reflexivity;
    try contradiction; try apply Hb; try (apply Hb8; reflexivity).
Qed.

(** [classify("amazing wonderful great")] is positive with confidence
    min(0.9, 3/3 * 2) = 0.9. *)
Lemma classify_confidence_witness :
  JS.trim "amazing wonderful great" <> "" /\
  exists r, analyzeSentiment 0 "amazing wonderful great" = Some r /\
            sentiment r = Positive /\ 0 <= confidence r <= 0.9.
Proof.
  assert (H : JS.trim "amazing wonderful great" <> "")
    by (vm_compute; discriminate).
  split; [exact H|].
  destruct (classify_confidence 0 "amazing wonderful great" H)
    as [r [Hr [_ [_ [_ [_ [Hb _]]]]]]].
  exists r. split; [exact Hr|]. split; [|exact Hb].
  assert (E : analyzeSentiment 0 "amazing wonderful great"
              = Some {| sentiment := Positive; confidence := 0.9;
                        positiveScore := 3 # 3; negativeScore := 0 # 3;
                        neutralScore := 0 # 9; wordCount := 3;
                        timestamp := 0 |}) by (vm_compute; reflexivity).
  rewrite E in Hr. injection Hr as <-. reflexivity.
Defined.

(** C4, as the code has it.  For every input the three scores add up to 1
    within 1e-9, whether the sum is taken exactly or in doubles;
    positiveScore is positiveCount / totalWords and negativeScore is
    negativeCount / totalWords (each rounded to a double), and neutralScore
    is the residual 1 - positiveScore - negativeScore; on blank input the
    scores are 0, 0 and 1.  The residual is not neutralCount / totalWords:
    on "the cat sat" it is 1 while no token is in the neutral list. *)
Theorem classify_scores_sum :
  (forall (now : Z) (inputText : string),
     exists r,
       analyzeSentiment64 now inputText = Some r /\
       Qabs (Double.add (Double.add (positiveScore r) (negativeScore r))
                        (neutralScore r) - 1) <= 1e-9 /\
       Qabs (positiveScore r + negativeScore r + neutralScore r - 1)
       <= 1e-9 /\
       positiveScore r
       == Double.round (ofNat (positiveCount (counts inputText))
                        / ofNat (totalWords inputText)) /\
       negativeScore r
       == Double.round (ofNat (negativeCount (counts inputText))
                        / ofNat (totalWords inputText)) /\
       neutralScore r
       == Double.sub (Double.sub 1 (positiveScore r)) (negativeScore r) /\
       (JS.trim inputText = "" ->
          positiveScore r = 0 /\ negativeScore r = 0 /\ neutralScore r = 1)) /\
  (exists r,
     analyzeSentiment64 0 "the cat sat" = Some r /\
     neutralScore r == 1 /\
     ofNat (neutralCount (counts "the cat sat"))
     / ofNat (totalWords "the cat sat") == 0).
Proof.
  split.
  - intros now inputText. destruct (trim_dec inputText) as [Hb|Hne].
    + exists (emptyDefault now). split; [apply classify64_blank, Hb|].
      rewrite (counts_blank inputText Hb). cbn [emptyDefault positiveScore
        negativeScore neutralScore positiveCount negativeCount].
      repeat split; try (vm_compute; discriminate);
        try (vm_compute; reflexivity);
        rewrite <- (DoubleFacts.round_comp 0 _ (ofNat_zero_div _));
        reflexivity.
    + destruct (classify64_nonblank now inputText Hne)
        as [sc [sc64 [_ [_ [_ Hr]]]]].
      eexists. split; [exact Hr|].
      cbn [positiveScore negativeScore neutralScore].
      pose proof (counts_sum inputText) as Hsum.
      destruct (scores64_bounds (positiveCount (counts inputText))
                  (negativeCount (counts inputText)) (totalWords inputText)
                  ltac:(lia) (totalWords_pos inputText))
        as [_ [_ [_ [_ [_ [_ [Hreal Hdbl]]]]]]].
      assert (Hu : Double.u == 1 # 9007199254740992) by reflexivity.
      assert (He : 1e-9 == 1 # 1000000000) by reflexivity.
      repeat split; try reflexivity; try contradiction;
        apply Qabs_Qle_condition; split; lra.
  - eexists. split; [vm_compute; reflexivity|]. split; reflexivity.
Qed.

(** C4 as stated fails: on three positive and two negative words among
    seven the scores are the doubles nearest to 3/7 and 2/7 and the rounded
    residual, and their sum is 1 - 2^-53 in doubles; taken exactly it is
    1 - 2^-54. *)
Lemma classify_scores_sum_counterexample :
  exists r,
    analyzeSentiment64 0 "good good good bad bad the the" = Some r /\
    Double.add (Double.add (positiveScore r) (negativeScore r))
               (neutralScore r)
    == 1 - (1 # 9007199254740992) /\
    ~ Double.add (Double.add (positiveScore r) (negativeScore r))
                 (neutralScore r) == 1 /\
    ~ positiveScore r + negativeScore r + neutralScore r == 1.
Proof.
  eexists. split; [vm_compute; reflexivity|].
  repeat split; vm_compute; discriminate.
Qed.

(** What the tokenizer and [getWordSentiments] do on blank input: the
    tokens are empty strings, one for the empty string and two for any other
    blank string, and each gets a neutral tag of score 0. *)
Lemma tagWords_blank (inputText : string) :
  JS.trim inputText = "" ->
  let blankTag := {| word := ""; tag := Neutral; score := 0 |} in
  tokenize inputText
  = match inputText with EmptyString => [""] | _ => [""; ""] end /\
  getWordSentiments inputText
  = match inputText with
    | EmptyString => [blankTag]
    | _ => [blankTag; blankTag]
    end.
Proof.
  intros H blankTag. apply trim_blank in H.
  pose proof (tokenize_blank inputText H) as Ht. split; [exact Ht|].
  unfold getWordSentiments, Scorer.getWordSentiments.
  unfold tokenize in Ht. rewrite Ht.
  destruct inputText; vm_compute; reflexivity.
Qed.

(** C5 (a defect of the code).  The claim asks for no token and no tag on
    blank input, as the guard of [analyzeSentiment] and the guard at the
    call site of [getWordSentiments] intend.  [getWordSentiments] itself has
    no such guard: on three spaces, which pass the guard of the call site,
    it returns two tags with the empty word, and on the empty string
    one. *)
Lemma tagWords_blank_failing_input :
  JS.trim "   " = "" /\ JS.trim "" = "" /\
  JS.truthy "   " = true /\
  tokenize "   " = [""; ""] /\
  getWordSentiments "   "
  = [ {| word := ""; tag := Neutral; score := 0 |};
      {| word := ""; tag := Neutral; score := 0 |} ] /\
  getWordSentiments "   " <> [] /\
  tokenize "" = [""] /\
  getWordSentiments "" = [ {| word := ""; tag := Neutral; score := 0 |} ] /\
  getWordSentiments "" <> [] /\
  analyzeSentiment 0 "   " = Some (emptyDefault 0).
Proof.
  repeat split; try (vm_compute; reflexivity); vm_compute; discriminate.
Qed.

(** C6, as the code has it.  The tokenizer lower-cases the input code unit
    by code unit, deletes every code unit that is neither in [A-Za-z0-9_]
    nor white space, and splits the rest on one-or-more white-space code
    units: the tokens are the pieces of [SplitOnWhitespace], and no other
    list is.  The tokens keep their order and their repetitions: read in
    order they are the lower-cased input with everything outside [a-z0-9_]
    deleted.  Every code unit of a token is a lower-case ASCII letter, a
    digit or the underscore. *)
Theorem tokenize_shape (inputText : string) :
  let lowered := JS.toLowerCase inputText in
  let cleaned :=
    keepChars (fun c => JS.isWordChar c || JS.isWhiteSpace c) lowered in
  chars lowered = map JS.toLowerChar (chars inputText) /\
  SplitOnWhitespace cleaned (tokenize inputText) /\
  (forall l, SplitOnWhitespace cleaned l -> l = tokenize inputText) /\
  Forall (fun tok => forall c, In c (chars tok) -> isLowerWordChar c = true)
         (tokenize inputText) /\
  String.concat "" (tokenize inputText) = keepChars JS.isWordChar lowered /\
  List.length (tokenize inputText) = S (whiteRuns false cleaned) /\
  Forall (fun tok => tok <> "") (removelast (tl (tokenize inputText))).
Proof.
  intros lowered cleaned.
  assert (Hclean : JS.stripNonWord lowered = cleaned)
    by apply stripNonWord_keepChars.
  assert (Htok : tokenize inputText = JS.splitWhitespace cleaned).
  { unfold tokenize, Scorer.tokenize. fold lowered. rewrite Hclean.
    reflexivity. }
  split; [apply chars_toLowerCase|].
  split; [rewrite Htok; apply split_spec_complete|].
  split; [intros l Hl; rewrite Htok; symmetry; apply split_spec_sound, Hl|].
  rewrite Htok, <- Hclean. unfold JS.splitWhitespace, lowered. repeat split.
  - eapply Forall_impl;
      [|apply (splitGo_allChars isLowerWordChar);
        [reflexivity|apply stripped_lower_chars]].
    intros tok Ht. apply allChars_In. exact Ht.
  - rewrite concat_empty_sep, splitGo_concat. simpl.
    apply keep_nonwhite_stripped.
  - apply splitGo_length.
  - apply splitGo_inner.
Qed.

(** C6 as stated fails: the underscore is neither a letter nor a digit and
    stays in its token, and the letter U+00E9 is deleted. *)
Lemma tokenize_shape_counterexample :
  tokenize "snake_case" = ["snake_case"] /\
  In "_"%char (chars "snake_case") /\
  isLetterOrDigit "_"%char = false /\
  tokenize (String "c" (String "a" (String "f"
             (String (ascii_of_N 233) EmptyString)))) = ["caf"].
Proof.
  repeat split; try (vm_compute; reflexivity).
  vm_compute. tauto.
Qed.




(** C8.  [getWordSentiments] returns one tag per token, in token order and
    with repetitions kept; each tag depends on its own word only: a word of
    the positive list is tagged positive with score +1, a word of the
    negative list negative with score -1, a word of the neutral list neutral
    with score 0, and a word of no list neutral with score 0. *)
Theorem tagWords_per_token (inputText : string) :
  map word (getWordSentiments inputText) = tokenize inputText /\
  List.length (getWordSentiments inputText) = List.length (tokenize inputText) /\
  Forall (fun t =>
            (In (word t) positiveWords -> tag t = Positive /\ score t = 1%Z) /\
            (In (word t) negativeWords -> tag t = Negative /\ score t = (-1)%Z) /\
            (In (word t) neutralWords -> tag t = Neutral /\ score t = 0%Z) /\
            (~ In (word t) positiveWords -> ~ In (word t) negativeWords ->
             ~ In (word t) neutralWords -> tag t = Neutral /\ score t = 0%Z))
         (getWordSentiments inputText).
Proof.
  unfold getWordSentiments, Scorer.getWordSentiments.
  fold (tokenize inputText).
  generalize (tokenize inputText) as ws. intros ws. repeat split.
  - induction ws as [|w ws IH]; simpl; [reflexivity|]. f_equal; [|exact IH].
    unfold Scorer.tagWord.
    destruct (JS.includes positiveWords w), (JS.includes negativeWords w),
      (JS.includes neutralWords w); reflexivity.
  - apply length_map.
  - apply Forall_forall. intros t Ht. apply in_map_iff in Ht.
    destruct Ht as [w [<- _]]. unfold Scorer.tagWord.
    destruct (lexicon_disjoint w) as [HdP HdN].
    destruct (JS.includes positiveWords w) eqn:EP;
      [|destruct (JS.includes negativeWords w) eqn:EN;
        [|destruct (JS.includes neutralWords w) eqn:EU]];
      cbn [word tag score];
      repeat match goal with
             | H : JS.includes _ _ = true |- _ => apply includes_In in H
             | H : JS.includes _ _ = false |- _ => apply includes_not_In in H
             end;
      repeat split; intros; auto; try contradiction;
      try (exfalso; tauto).
Qed.


(** C10.  For any three word lists, disjoint or not, a token is looked up in
    the positive list first, then in the negative list, then in the neutral
    list; the first list that has it decides both the counter that moves and
    the tag, and no other counter moves.  Hence over a whole token list the
    counters of [analyzeSentiment] are the numbers of first hits, they add up
    to at most the number of tokens, and the positive and negative counters
    equal the numbers of positive and negative tags of
    [getWordSentiments]. *)
Theorem lookup_order (P N U : list string) :
  (forall (w : string) (c : Counts),
     let t := Scorer.tagWord P N U w in
     let c' := Scorer.countWord P N U c w in
     (In w P ->
        tag t = Positive /\ score t = 1%Z /\
        c' = mkCounts (S (positiveCount c)) (negativeCount c) (neutralCount c)) /\
     (~ In w P -> In w N ->
        tag t = Negative /\ score t = (-1)%Z /\
        c' = mkCounts (positiveCount c) (S (negativeCount c)) (neutralCount c)) /\
     (~ In w P -> ~ In w N -> In w U ->
        tag t = Neutral /\ score t = 0%Z /\
        c' = mkCounts (positiveCount c) (negativeCount c) (S (neutralCount c))) /\
     (~ In w P -> ~ In w N -> ~ In w U ->
        tag t = Neutral /\ score t = 0%Z /\ c' = c)) /\
  (forall inputText : string,
     let ws := Scorer.tokenize inputText in
     let c := Scorer.countWords P N U ws in
     let tags := Scorer.getWordSentiments P N U inputText in
     positiveCount c = countIf (hitsPositive P) ws /\
     negativeCount c = countIf (hitsNegative P N) ws /\
     neutralCount c = countIf (hitsNeutral P N U) ws /\
     (positiveCount c + negativeCount c + neutralCount c <= List.length ws)%nat /\
     countTag Positive tags = positiveCount c /\
     countTag Negative tags = negativeCount c).
Proof.
  split.
  - intros w [p n u] t c'. unfold t, c', Scorer.tagWord, Scorer.countWord.
    simpl.
    destruct (JS.includes P w) eqn:EP;
      [|destruct (JS.includes N w) eqn:EN;
        [|destruct (JS.includes U w) eqn:EU]]; simpl;
      repeat match goal with
             | H : JS.includes _ _ = true |- _ => apply includes_In in H
             | H : JS.includes _ _ = false |- _ => apply includes_not_In in H
             end;
      repeat split; intros; auto; contradiction.
  - intros inputText ws c tags.
    pose proof (countWords_countIf P N U ws) as Hc. fold c in Hc.
    pose proof (countWords_sum P N U ws) as Hsum. fold c in Hsum.
    destruct (countTag_tagWord P N U ws) as [Hp Hn].
    unfold tags, Scorer.getWordSentiments. fold ws.
    rewrite Hp, Hn. rewrite Hc in *. simpl in *.
    repeat split; auto.
Qed.


(** * Further properties of the scorer *)

Lemma isWhiteSpace_toLowerChar (c : ascii) :
  JS.isWhiteSpace (JS.toLowerChar c) = JS.isWhiteSpace c.
Proof. each_code_unit c. Qed.

Lemma isWordChar_toLowerChar (c : ascii) :
  JS.isWordChar (JS.toLowerChar c) = JS.isWordChar c.
Proof. each_code_unit c. Qed.

Lemma allChars_white_toLowerCase (s : string) :
  allChars JS.isWhiteSpace (JS.toLowerCase s) = allChars JS.isWhiteSpace s.
Proof.
  induction s as [|c s IH]; simpl; [reflexivity|].
  rewrite isWhiteSpace_toLowerChar, IH. reflexivity.
Qed.

Lemma truthy_trim (s : string) :
  JS.truthy (JS.trim s) = negb (allChars JS.isWhiteSpace s).
Proof.
  destruct (allChars JS.isWhiteSpace s) eqn:E; simpl.
  - apply trim_blank in E. rewrite E. reflexivity.
  - destruct (JS.trim s) eqn:Et; [|reflexivity].
    apply trim_blank in Et. congruence.
Qed.

Lemma stripNonWord_wordless (s : string) :
  keepChars JS.isWordChar s = "" ->
  allChars JS.isWhiteSpace (JS.stripNonWord s) = true.
Proof.
  induction s as [|c s IH]; simpl; [reflexivity|].
  destruct (JS.isWordChar c) eqn:Ew; simpl; [discriminate|].
  destruct (JS.isWhiteSpace c) eqn:Es; simpl; [rewrite Es; simpl|]; exact IH.
Qed.

Lemma keepChars_word_toLowerCase (s : string) :
  keepChars JS.isWordChar s = "" ->
  keepChars JS.isWordChar (JS.toLowerCase s) = "".
Proof.
  induction s as [|c s IH]; simpl; [reflexivity|].
  rewrite isWordChar_toLowerChar.
  destruct (JS.isWordChar c); [discriminate|exact IH].
Qed.

(** The scorer reads its input through the blank test and the tokens
    only. *)
Lemma analyze_by_tokens (now : Z) (a b : string) :
  allChars JS.isWhiteSpace a = allChars JS.isWhiteSpace b ->
  tokenize a = tokenize b ->
  analyzeSentiment now a = analyzeSentiment now b.
Proof.
  intros Hblank Htok.
  unfold analyzeSentiment, Scorer.analyzeSentiment.
  rewrite !truthy_trim, Hblank.
  unfold tokenize in Htok. rewrite Htok. reflexivity.
Qed.

(** X1.  Letter case does not matter: two texts with the same lower-case
    form get the same result (at the same instant) and the same tags. *)
Theorem case_insensitive (now : Z) (a b : string) :
  JS.toLowerCase a = JS.toLowerCase b ->
  analyzeSentiment now a = analyzeSentiment now b /\
  getWordSentiments a = getWordSentiments b.
Proof.
  intros H.
  assert (Htok : tokenize a = tokenize b).
  { unfold tokenize, Scorer.tokenize. rewrite H. reflexivity. }
  split.
  - apply analyze_by_tokens; [|exact Htok].
    rewrite <- (allChars_white_toLowerCase a), H.
    apply allChars_white_toLowerCase.
  - unfold getWordSentiments, Scorer.getWordSentiments.
    unfold tokenize in Htok. rewrite Htok. reflexivity.
Qed.

Lemma case_insensitive_witness :
  JS.toLowerCase "What a GREAT Day" = JS.toLowerCase "what A great dAY" /\
  analyzeSentiment 5 "What a GREAT Day" = analyzeSentiment 5 "what A great dAY".
Proof.
  assert (H : JS.toLowerCase "What a GREAT Day"
              = JS.toLowerCase "what A great dAY") by reflexivity.
  split; [exact H|].
  exact (proj1 (case_insensitive 5 "What a GREAT Day" "what A great dAY" H)).
Defined.

Lemma toLowerCase_append (a b : string) :
  JS.toLowerCase (a ++ b) = JS.toLowerCase a ++ JS.toLowerCase b.
Proof. induction a as [|c a IH]; simpl; [reflexivity|]. rewrite IH. reflexivity. Qed.

Lemma stripNonWord_append (a b : string) :
  JS.stripNonWord (a ++ b) = JS.stripNonWord a ++ JS.stripNonWord b.
Proof.
  induction a as [|c a IH]; simpl; [reflexivity|].
  destruct (JS.isWordChar c || JS.isWhiteSpace c); simpl; rewrite IH;
    reflexivity.
Qed.

(** X2.  On text of code units up to U+00FF, punctuation does not matter
    unless the text is blank: putting a code unit of that range that is
    neither in [\w] nor in [\s] anywhere into a text that is not blank (or
    taking it out) changes neither the result nor the tags.  (Beyond U+00FF
    this fails: [toLowerCase] turns U+212A into k.) *)
Theorem punctuation_insensitive (now : Z) (a b : string) (p : ascii) :
  JS.isWordChar p = false -> JS.isWhiteSpace p = false ->
  JS.trim (a ++ b) <> "" ->
  analyzeSentiment now (a ++ String p b) = analyzeSentiment now (a ++ b) /\
  getWordSentiments (a ++ String p b) = getWordSentiments (a ++ b).
Proof.
  intros Hw Hs Hne.
  assert (Htok : tokenize (a ++ String p b) = tokenize (a ++ b)).
  { unfold tokenize, Scorer.tokenize.
    rewrite !toLowerCase_append, !stripNonWord_append. simpl.
    rewrite isWordChar_toLowerChar, isWhiteSpace_toLowerChar, Hw, Hs.
    reflexivity. }
  split.
  - apply analyze_by_tokens; [|exact Htok].
    rewrite !allChars_append. simpl. rewrite Hs. simpl.
    rewrite andb_false_r. symmetry.
    destruct (allChars JS.isWhiteSpace a && allChars JS.isWhiteSpace b)
      eqn:E; [|reflexivity].
    exfalso. apply Hne, trim_blank. rewrite allChars_append. exact E.
  - unfold getWordSentiments, Scorer.getWordSentiments.
    unfold tokenize in Htok. rewrite Htok. reflexivity.
Qed.

Lemma punctuation_insensitive_witness :
  JS.isWordChar "!" = false /\ JS.isWhiteSpace "!" = false /\
  JS.trim "so great" <> "" /\
  analyzeSentiment 5 "so! great" = analyzeSentiment 5 "so great".
Proof.
  assert (H : JS.trim ("so" ++ " great") <> "") by (vm_compute; discriminate).
  split; [reflexivity|]. split; [reflexivity|]. split; [exact H|].
  exact (proj1 (punctuation_insensitive 5 "so" " great" "!"
                  eq_refl eq_refl H)).
Defined.

(** X3.  Text of code units up to U+00FF that is not blank but has no code
    unit of [\w] (punctuation only, say) is not given the blank default: it
    is labelled neutral with confidence 0.5, scores 0, 0 and 1, and counted
    as one word, or as two when it contains white space.  (Beyond U+00FF
    this fails: [toLowerCase] turns U+212A into k.) *)
Theorem wordless_not_blank (now : Z) (inputText : string) :
  JS.trim inputText <> "" ->
  keepChars JS.isWordChar inputText = "" ->
  exists r,
    analyzeSentiment now inputText = Some r /\
    sentiment r = Neutral /\ confidence r == 0.5 /\
    positiveScore r == 0 /\ negativeScore r == 0 /\ neutralScore r == 1 /\
    (1 <= wordCount r <= 2)%nat /\
    r <> emptyDefault now.
Proof.
  intros Hne Hw.
  assert (Hblank : allChars JS.isWhiteSpace
                     (JS.stripNonWord (JS.toLowerCase inputText)) = true).
  { apply stripNonWord_wordless, keepChars_word_toLowerCase, Hw. }
  assert (Htok : tokenize inputText = [""] \/ tokenize inputText = [""; ""]).
  { unfold tokenize, Scorer.tokenize.
    rewrite (splitWhitespace_blank _ Hblank).
    destruct (JS.stripNonWord (JS.toLowerCase inputText)); auto. }
  destruct (classify_nonblank now inputText Hne) as [sc [Hsc Hr]].
  unfold counts, totalWords in Hsc, Hr.
  destruct Htok as [Ht|Ht]; rewrite Ht in Hsc, Hr;
    vm_compute in Hsc; injection Hsc as <-;
    eexists; (split; [exact Hr|]); simpl;
    repeat split; try reflexivity; try lia; discriminate.
Qed.

Lemma wordless_not_blank_witness :
  JS.trim "?! ..." <> "" /\ keepChars JS.isWordChar "?! ..." = "" /\
  exists r, analyzeSentiment 0 "?! ..." = Some r /\
            confidence r == 0.5 /\ wordCount r = 2%nat.
Proof.
  assert (H : JS.trim "?! ..." <> "") by (vm_compute; discriminate).
  split; [exact H|]. split; [reflexivity|].
  destruct (wordless_not_blank 0 "?! ..." H eq_refl)
    as [r [Hr [_ [Hc _]]]].
  exists r. split; [exact Hr|]. split; [exact Hc|].
  assert (E : analyzeSentiment 0 "?! ..."
              = Some {| sentiment := Neutral; confidence := 0.5;
                        positiveScore := 0 # 2; negativeScore := 0 # 2;
                        neutralScore := 4 # 4; wordCount := 2;
                        timestamp := 0 |}) by (vm_compute; reflexivity).
  rewrite E in Hr. injection Hr as <-. reflexivity.
Defined.

Lemma ofNat_lt (m n : nat) : (m < n)%nat -> ofNat m < ofNat n.
Proof. intros H. unfold ofNat, Qlt. simpl. lia. Qed.

Lemma fraction_pos (m n : nat) :
  (1 <= m)%nat -> (1 <= n)%nat -> 0 < ofNat m / ofNat n.
Proof.
  intros Hm Hn. apply Qlt_shift_div_l; [apply ofNat_pos, Hn|].
  rewrite Qmult_0_l. apply ofNat_pos, Hm.
Qed.

Lemma fraction_lt (a b n : nat) :
  (a < b)%nat -> (1 <= n)%nat -> ofNat a / ofNat n < ofNat b / ofNat n.
Proof.
  intros Hab Hn. unfold Qdiv. apply Qmult_lt_compat_r.
  - apply Qinv_lt_0_compat, ofNat_pos, Hn.
  - apply ofNat_lt, Hab.
Qed.

(** On text that is not blank the confidence is positive, and at least 0.3
    under the neutral label. *)
Lemma label_confidence_pos (c : Counts) (total : nat) (sc : Sentiment * Q) :
  (positiveCount c + negativeCount c + neutralCount c <= total)%nat ->
  Scorer.label c total = Some sc ->
  0 < snd sc /\ (fst sc = Neutral -> 0.3 <= snd sc).
Proof.
  intros Hsum Hsc.
  destruct (label_cases c total Hsum)
    as [[[Hp1 Hp2] H]|[[_ [[Hn1 Hn2] H]]|[[_ [_ [_ H]]]|[_ [_ [_ H]]]]]];
    rewrite H in Hsc; injection Hsc as <-; simpl.
  - split; [|discriminate]. apply Q.min_glb_lt; [reflexivity|].
    apply (Qlt_le_trans _ (ofNat (positiveCount c) / ofNat total * 1)).
    + rewrite Qmult_1_r. apply fraction_pos; lia.
    + apply Qmult_le_l; [apply fraction_pos; lia|discriminate].
  - split; [|discriminate]. apply Q.min_glb_lt; [reflexivity|].
    apply (Qlt_le_trans _ (ofNat (negativeCount c) / ofNat total * 1)).
    + rewrite Qmult_1_r. apply fraction_pos; lia.
    + apply Qmult_le_l; [apply fraction_pos; lia|discriminate].
  - split; [reflexivity|intros _; discriminate].
  - assert (H3 : 0.3 <= Qmin 0.8 (0.3 + ofNat (neutralCount c) / ofNat total)).
    { apply Q.min_glb; [discriminate|].
      apply (Qle_trans _ (0.3 + 0)); [discriminate|].
      apply Qplus_le_r, fraction_nonneg. }
    split; [|intros _; exact H3].
    apply (Qlt_le_trans _ 0.3); [reflexivity|exact H3].
Qed.

(** X4.  The confidence is 0 exactly on blank input; on any other input it
    is positive, and at least 0.3 under the neutral label. *)
Theorem confidence_zero_iff_blank (now : Z) (inputText : string) :
  exists r,
    analyzeSentiment now inputText = Some r /\
    (confidence r == 0 <-> JS.trim inputText = "") /\
    (JS.trim inputText <> "" -> 0 < confidence r) /\
    (JS.trim inputText <> "" -> sentiment r = Neutral -> 0.3 <= confidence r).
Proof.
  destruct (trim_dec inputText) as [Hb|Hne].
  - exists (emptyDefault now). split; [apply classify_blank, Hb|]. simpl.
    repeat split; intros; try reflexivity; try assumption; contradiction.
  - destruct (classify_nonblank now inputText Hne) as [sc [Hsc Hr]].
    destruct (label_confidence_pos _ _ sc (counts_sum inputText) Hsc)
      as [Hpos H3].
    eexists. split; [exact Hr|]. simpl. repeat split; auto.
    + intros E. rewrite E in Hpos. exfalso. exact (Qlt_irrefl 0 Hpos).
    + intros E. contradiction.
Qed.

(** X5.  Up to rounding, the two polar scores add up to at most 1 and the
    neutral score, being the residual, is not below the share of tokens
    found in the neutral list: with the doubles of the code both hold within
    1e-9. *)
Theorem residual_covers_neutral (now : Z) (inputText : string) :
  exists r,
    analyzeSentiment64 now inputText = Some r /\
    positiveScore r + negativeScore r <= 1 + 1e-9 /\
    ofNat (neutralCount (counts inputText)) / ofNat (totalWords inputText)
    - 1e-9 <= neutralScore r.
Proof.
  assert (Hu : Double.u == 1 # 9007199254740992) by reflexivity.
  assert (He : 1e-9 == 1 # 1000000000) by reflexivity.
  destruct (trim_dec inputText) as [Hb|Hne].
  - exists (emptyDefault now). split; [apply classify64_blank, Hb|].
    rewrite (counts_blank inputText Hb). simpl. split; [discriminate|].
    rewrite <- ofNat_zero_div. discriminate.
  - destruct (classify64_nonblank now inputText Hne)
      as [sc [sc64 [_ [_ [_ Hr]]]]].
    eexists. split; [exact Hr|].
    cbn [positiveScore negativeScore neutralScore].
    pose proof (counts_sum inputText) as Hsum.
    pose proof (totalWords_pos inputText) as Hpos.
    destruct (scores64_bounds (positiveCount (counts inputText))
                (negativeCount (counts inputText)) (totalWords inputText)
                ltac:(lia) Hpos)
      as [Hps [Hns [Hnu1 [Eps [Ens [Enu _]]]]]].
    pose proof (fraction_sum3 _ _ _ _ Hsum Hpos) as H3.
    pose proof (fraction_nonneg (neutralCount (counts inputText))
                  (totalWords inputText)) as H0.
    split; lra.
Qed.

(** X6.  The label agrees with the order of the two polar scores: under the
    positive label positiveScore exceeds negativeScore, under the negative
    label it is the other way round, and equal polar scores give the neutral
    label. *)
Theorem label_orders_polar_scores (now : Z) (inputText : string) :
  exists r,
    analyzeSentiment now inputText = Some r /\
    (sentiment r = Positive ->
       negativeScore r < positiveScore r /\ 0 < positiveScore r) /\
    (sentiment r = Negative ->
       positiveScore r < negativeScore r /\ 0 < negativeScore r).
Proof.
  destruct (trim_dec inputText) as [Hb|Hne].
  - exists (emptyDefault now). split; [apply classify_blank, Hb|].
    simpl. split; discriminate.
  - destruct (classify_nonblank now inputText Hne) as [sc [Hsc Hr]].
    pose proof (totalWords_pos inputText) as Hpos.
    eexists. split; [exact Hr|]. simpl.
    destruct (label_cases _ _ (counts_sum inputText))
      as [[[Hp1 Hp2] H]|[[_ [[Hn1 Hn2] H]]|[[_ [_ [_ H]]]|[_ [_ [_ H]]]]]];
      rewrite H in Hsc; injection Hsc as <-; simpl;
      split; intros; try discriminate.
    + split; [apply fraction_lt; assumption|apply fraction_pos; lia].
    + split; [apply fraction_lt; assumption|apply fraction_pos; lia].
Qed.

Lemma netScore_tagWord (P N U : list string) (ws : list string) :
  netScore (map (Scorer.tagWord P N U) ws)
  = (Z.of_nat (countIf (hitsPositive P) ws)
     - Z.of_nat (countIf (hitsNegative P N) ws))%Z.
Proof.
  unfold netScore, countIf, hitsPositive, hitsNegative, Scorer.tagWord.
  induction ws as [|w ws IH]; [reflexivity|].
  cbn [map fold_right filter].
  destruct (JS.includes P w), (JS.includes N w), (JS.includes U w);
    cbn [score negb andb List.length]; rewrite IH; lia.
Qed.

(** X7.  The scores of the tags add up to positiveCount - negativeCount; the
    sum is positive under the positive label, negative under the negative
    label, and when it is 0 the label is neutral. *)
Theorem net_score_sign (now : Z) (inputText : string) :
  exists r,
    analyzeSentiment now inputText = Some r /\
    netScore (getWordSentiments inputText)
    = (Z.of_nat (positiveCount (counts inputText))
       - Z.of_nat (negativeCount (counts inputText)))%Z /\
    (sentiment r = Positive -> (0 < netScore (getWordSentiments inputText))%Z) /\
    (sentiment r = Negative -> (netScore (getWordSentiments inputText) < 0)%Z) /\
    (netScore (getWordSentiments inputText) = 0%Z -> sentiment r = Neutral).
Proof.
  assert (Hnet : netScore (getWordSentiments inputText)
                 = (Z.of_nat (positiveCount (counts inputText))
                    - Z.of_nat (negativeCount (counts inputText)))%Z).
  { unfold getWordSentiments, Scorer.getWordSentiments, counts, countWords.
    fold (tokenize inputText).
    rewrite netScore_tagWord, countWords_countIf. reflexivity. }
  rewrite Hnet.
  destruct (trim_dec inputText) as [Hb|Hne].
  - exists (emptyDefault now). split; [apply classify_blank, Hb|].
    simpl. repeat split; intros; try discriminate; reflexivity.
  - destruct (classify_nonblank now inputText Hne) as [sc [Hsc Hr]].
    eexists. split; [exact Hr|]. simpl.
    destruct (label_cases _ _ (counts_sum inputText))
      as [[[Hp1 Hp2] H]|[[_ [[Hn1 Hn2] H]]|[[_ [_ [_ H]]]|[_ [_ [_ H]]]]]];
      rewrite H in Hsc; injection Hsc as <-; simpl;
      repeat split; intros; try discriminate; try reflexivity; lia.
Qed.

Lemma word_not_whitespace (c : ascii) :
  JS.isWordChar c = true -> JS.isWhiteSpace c = false.
Proof.
  intros Hw. destruct (JS.isWhiteSpace c) eqn:E; [|reflexivity].
  rewrite (whitespace_not_word c E) in Hw. discriminate.
Qed.

Lemma tokenize_leading_whitespace (w c : ascii) (rest : string) :
  JS.isWhiteSpace w = true -> JS.isWordChar c = true ->
  tokenize (String w (String c rest)) = "" :: tokenize (String c rest).
Proof.
  intros Hw Hc. unfold tokenize, Scorer.tokenize. simpl.
  rewrite (toLowerChar_whitespace w Hw), Hw, orb_true_r.
  rewrite isWordChar_toLowerChar, Hc. simpl.
  assert (Hn : JS.isWhiteSpace (JS.toLowerChar c) = false).
  { apply word_not_whitespace. rewrite isWordChar_toLowerChar. exact Hc. }
  unfold JS.splitWhitespace. simpl. rewrite Hw, Hn. reflexivity.
Qed.

Lemma countWords_empty_token (ws : list string) :
  countWords ("" :: ws) = countWords ws.
Proof. reflexivity. Qed.

(** The label does not depend on the number of words. *)
Lemma label_fst (c : Counts) (total total' : nat) (sc sc' : Sentiment * Q) :
  Scorer.label c total = Some sc -> Scorer.label c total' = Some sc' ->
  fst sc = fst sc'.
Proof.
  unfold Scorer.label.
  destruct ((negativeCount c <? positiveCount c)%nat
            && (neutralCount c <? positiveCount c)%nat).
  { destruct (divide _ (ofNat total)), (divide _ (ofNat total'));
      try discriminate. intros [= <-] [= <-]. reflexivity. }
  destruct ((positiveCount c <? negativeCount c)%nat
            && (neutralCount c <? negativeCount c)%nat).
  { destruct (divide _ (ofNat total)), (divide _ (ofNat total'));
      try discriminate. intros [= <-] [= <-]. reflexivity. }
  destruct (positiveCount c + negativeCount c + neutralCount c =? 0)%nat.
  { intros [= <-] [= <-]. reflexivity. }
  destruct (divide _ (ofNat total)), (divide _ (ofNat total'));
    try discriminate. intros [= <-] [= <-]. reflexivity.
Qed.

Lemma fraction_antitone (m n n' : nat) :
  (1 <= n)%nat -> (n <= n')%nat -> ofNat m / ofNat n' <= ofNat m / ofNat n.
Proof.
  intros Hn Hnn'.
  apply Qle_shift_div_r; [apply ofNat_pos; lia|].
  apply (Qle_trans _ (ofNat m / ofNat n * ofNat n)).
  - apply Qle_lteq. right. field. apply ofNat_neq_0, Hn.
  - rewrite !(Qmult_comm (ofNat m / ofNat n)).
    apply Qmult_le_compat_r; [apply ofNat_le, Hnn'|apply fraction_nonneg].
Qed.

(** X8.  White space is not trimmed before splitting: one white-space code
    unit in front of a text that starts with a code unit of [\w] adds an
    empty word.  The label stays, wordCount grows by one, and neither polar
    score grows. *)
Theorem leading_whitespace_adds_word
    (now : Z) (w c : ascii) (rest : string) :
  JS.isWhiteSpace w = true -> JS.isWordChar c = true ->
  exists r r',
    analyzeSentiment now (String c rest) = Some r /\
    analyzeSentiment now (String w (String c rest)) = Some r' /\
    wordCount r' = S (wordCount r) /\
    sentiment r' = sentiment r /\
    positiveScore r' <= positiveScore r /\
    negativeScore r' <= negativeScore r.
Proof.
  intros Hw Hc.
  assert (Hn : JS.isWhiteSpace c = false) by (apply word_not_whitespace, Hc).
  assert (H1 : JS.trim (String c rest) <> "").
  { intros E. apply trim_blank in E. simpl in E. rewrite Hn in E.
    discriminate. }
  assert (H2 : JS.trim (String w (String c rest)) <> "").
  { intros E. apply trim_blank in E. simpl in E. rewrite Hw, Hn in E.
    discriminate. }
  destruct (classify_nonblank now _ H1) as [sc [Hsc Hr]].
  destruct (classify_nonblank now _ H2) as [sc' [Hsc' Hr']].
  unfold counts, totalWords in Hsc', Hr'.
  rewrite (tokenize_leading_whitespace w c rest Hw Hc) in Hsc', Hr'.
  rewrite countWords_empty_token in Hsc', Hr'.
  fold (counts (String c rest)) in Hsc', Hr'.
  cbn [List.length] in Hsc', Hr'. fold (totalWords (String c rest)) in Hsc', Hr'.
  pose proof (totalWords_pos (String c rest)) as Hpos.
  do 2 eexists. split; [exact Hr|]. split; [exact Hr'|]. simpl.
  repeat split.
  - symmetry. exact (label_fst _ _ _ _ _ Hsc Hsc').
  - apply fraction_antitone; lia.
  - apply fraction_antitone; lia.
Qed.

Lemma leading_whitespace_adds_word_witness :
  JS.isWhiteSpace " " = true /\ JS.isWordChar "g" = true /\
  exists r r',
    analyzeSentiment 0 "good" = Some r /\
    analyzeSentiment 0 " good" = Some r' /\
    wordCount r = 1%nat /\ wordCount r' = 2%nat.
Proof.
  split; [reflexivity|]. split; [reflexivity|].
  destruct (leading_whitespace_adds_word 0 " " "g" "ood" eq_refl eq_refl)
    as [r [r' [Hr [Hr' [Hwc _]]]]].
  exists r, r'. split; [exact Hr|]. split; [exact Hr'|].
  assert (E : wordCount r = 1%nat).
  { assert (E0 : analyzeSentiment 0 "good"
                 = Some {| sentiment := Positive; confidence := 0.9;
                           positiveScore := 1 # 1; negativeScore := 0 # 1;
                           neutralScore := 0 # 1; wordCount := 1;
                           timestamp := 0 |}) by (vm_compute; reflexivity).
    rewrite E0 in Hr. injection Hr as <-. reflexivity. }
  split; [exact E|]. rewrite Hwc, E. reflexivity.
Defined.

Lemma lowerWord_toLowerChar (c : ascii) :
  isLowerWordChar c = true -> JS.toLowerChar c = c.
Proof. each_code_unit c. Qed.

Lemma lowerWord_not_whitespace (c : ascii) :
  isLowerWordChar c = true -> JS.isWhiteSpace c = false.
Proof. intros H. apply word_not_whitespace, lowerWord_is_word, H. Qed.

(** Text made of white space and of lower-case code units of [\w] is left
    alone by the cleaning steps of the tokenizer. *)
Lemma clean_text_fixed (s : string) :
  allChars (fun c => JS.isWhiteSpace c || isLowerWordChar c) s = true ->
  JS.stripNonWord (JS.toLowerCase s) = s.
Proof.
  induction s as [|c s IH]; simpl; [reflexivity|].
  intros H. apply andb_true_iff in H. destruct H as [Hc Hs].
  assert (El : JS.toLowerChar c = c).
  { apply orb_true_iff in Hc. destruct Hc as [Hc|Hc].
    - apply toLowerChar_whitespace, Hc.
    - apply lowerWord_toLowerChar, Hc. }
  assert (Ek : JS.isWordChar c || JS.isWhiteSpace c = true).
  { apply orb_true_iff in Hc. destruct Hc as [Hc|Hc].
    - rewrite Hc. apply orb_true_r.
    - rewrite (lowerWord_is_word c Hc). reflexivity. }
  rewrite El, Ek, (IH Hs). reflexivity.
Qed.

Lemma allChars_weaken (p q : ascii -> bool) (s : string) :
  (forall c, p c = true -> q c = true) ->
  allChars p s = true -> allChars q s = true.
Proof.
  intros Hpq. induction s as [|c s IH]; simpl; [reflexivity|].
  intros H. apply andb_true_iff in H. destruct H as [Hc Hs].
  rewrite (Hpq c Hc), (IH Hs). reflexivity.
Qed.

Lemma allChars_join (p : ascii -> bool) (l : list string) :
  p " "%char = true ->
  Forall (fun tok => allChars p tok = true) l ->
  allChars p (String.concat " " l) = true.
Proof.
  intros Hsp. induction 1 as [|x l Hx Hl IH]; simpl; [reflexivity|].
  destruct l as [|y l]; [exact Hx|].
  rewrite allChars_append, Hx. simpl. rewrite Hsp. exact IH.
Qed.

Lemma splitGo_join_insep (l : list string) :
  l <> [] ->
  Forall (fun tok => allChars (fun c => negb (JS.isWhiteSpace c)) tok = true) l ->
  Forall (fun tok => tok <> "") (removelast l) ->
  JS.splitGo true "" (String.concat " " l) = l.
Proof.
  induction l as [|y l IH]; [congruence|]. intros _ Hall Hinner.
  inversion Hall as [|? ? Hy Hl]; subst.
  destruct l as [|z l].
  - simpl. destruct y as [|c y]; [reflexivity|].
    rewrite <- (append_empty_r (String c y)) at 1.
    rewrite splitGo_stretch_insep by (auto; discriminate). reflexivity.
  - cbn [removelast] in Hinner. inversion Hinner as [|? ? Hne Hrest]; subst.
    rewrite concat_cons2.
    rewrite splitGo_stretch_insep by assumption.
    rewrite splitGo_space. f_equal.
    apply IH; [discriminate|assumption|assumption].
Qed.

Lemma splitGo_join (x : string) (rest : list string) :
  Forall (fun tok => allChars (fun c => negb (JS.isWhiteSpace c)) tok = true)
         (x :: rest) ->
  Forall (fun tok => tok <> "") (removelast rest) ->
  JS.splitGo false "" (String.concat " " (x :: rest)) = x :: rest.
Proof.
  intros Hall Hinner. inversion Hall as [|? ? Hx Hrest]; subst.
  destruct rest as [|z l].
  - simpl. rewrite <- (append_empty_r x) at 1.
    rewrite splitGo_stretch by exact Hx. reflexivity.
  - rewrite concat_cons2. rewrite splitGo_stretch by exact Hx.
    change ("" ++ x) with x. rewrite splitGo_space. f_equal.
    apply splitGo_join_insep; [discriminate|assumption|assumption].
Qed.

(** X9.  Tokenizing is idempotent through [join(' ')]: the tokens of a text,
    joined by single spaces, tokenize to the same tokens, so the joined text
    gets the same tags. *)
Theorem tokenize_join_fixed (inputText : string) :
  tokenize (String.concat " " (tokenize inputText)) = tokenize inputText /\
  getWordSentiments (String.concat " " (tokenize inputText))
  = getWordSentiments inputText.
Proof.
  assert (Hlow : Forall (fun tok => allChars isLowerWordChar tok = true)
                        (tokenize inputText)).
  { apply (splitGo_allChars isLowerWordChar);
      [reflexivity|apply stripped_lower_chars]. }
  assert (Hinner : Forall (fun tok => tok <> "")
                          (removelast (tl (tokenize inputText)))).
  { apply splitGo_inner. }
  assert (Htok : tokenize (String.concat " " (tokenize inputText))
                 = tokenize inputText).
  { destruct (tokenize_cons inputText) as [x [rest E]].
    rewrite E in *. cbn [tl] in Hinner.
    unfold tokenize at 1. unfold Scorer.tokenize.
    rewrite clean_text_fixed.
    - apply splitGo_join; [|exact Hinner].
      eapply Forall_impl; [|exact Hlow]. intros tok.
      apply allChars_weaken. intros c Hc.
      rewrite (lowerWord_not_whitespace c Hc). reflexivity.
    - apply allChars_join; [reflexivity|].
      eapply Forall_impl; [|exact Hlow]. intros tok.
      apply allChars_weaken. intros c Hc. rewrite Hc. apply orb_true_r. }
  split; [exact Htok|].
  unfold getWordSentiments, Scorer.getWordSentiments.
  unfold tokenize in *. rewrite Htok. reflexivity.
Qed.

Lemma truthy_trim_true (s : string) :
  JS.trim s <> "" -> JS.truthy (JS.trim s) = true.
Proof. destruct (JS.trim s); [congruence|reflexivity]. Qed.

Lemma countIf_Permutation (p : string -> bool) (l l' : list string) :
  Permutation l l' -> countIf p l = countIf p l'.
Proof.
  unfold countIf. induction 1 as [|x l l' _ IH|x y l|l l' l'' _ IH1 _ IH2];
    simpl.
  - reflexivity.
  - destruct (p x); simpl; rewrite IH; reflexivity.
  - destruct (p x), (p y); reflexivity.
  - rewrite IH1. exact IH2.
Qed.

(** X10.  The order of the words does not matter: two texts that are not
    blank and whose token lists are permutations of each other get the same
    result, and their tag lists are permutations of each other. *)
Theorem word_order_irrelevant (now : Z) (a b : string) :
  Permutation (tokenize a) (tokenize b) ->
  JS.trim a <> "" -> JS.trim b <> "" ->
  analyzeSentiment now a = analyzeSentiment now b /\
  Permutation (getWordSentiments a) (getWordSentiments b).
Proof.
  intros Hperm Ha Hb. split.
  - assert (Hc : countWords (tokenize a) = countWords (tokenize b)).
    { unfold countWords. rewrite !countWords_countIf.
      rewrite (countIf_Permutation _ _ _ Hperm).
      rewrite (countIf_Permutation (hitsNegative _ _) _ _ Hperm).
      rewrite (countIf_Permutation (hitsNeutral _ _ _) _ _ Hperm).
      reflexivity. }
    pose proof (Permutation_length Hperm) as Hlen.
    unfold analyzeSentiment, Scorer.analyzeSentiment.
    rewrite (truthy_trim_true a Ha), (truthy_trim_true b Hb).
    unfold countWords, tokenize in Hc, Hlen. cbn [negb].
    rewrite Hc, Hlen. reflexivity.
  - unfold getWordSentiments, Scorer.getWordSentiments.
    apply Permutation_map. exact Hperm.
Qed.

Lemma word_order_irrelevant_witness :
  Permutation (tokenize "good bad day") (tokenize "day good bad") /\
  JS.trim "good bad day" <> "" /\ JS.trim "day good bad" <> "" /\
  analyzeSentiment 2 "good bad day" = analyzeSentiment 2 "day good bad".
Proof.
  assert (Hp : Permutation (tokenize "good bad day") (tokenize "day good bad")).
  { change (Permutation ["good"; "bad"; "day"] ["day"; "good"; "bad"]).
    apply Permutation_sym. apply (Permutation_cons_app ["good"; "bad"] []).
    apply Permutation_refl. }
  assert (Ha : JS.trim "good bad day" <> "") by (vm_compute; discriminate).
  assert (Hb : JS.trim "day good bad" <> "") by (vm_compute; discriminate).
  split; [exact Hp|]. split; [exact Ha|]. split; [exact Hb|].
  exact (proj1 (word_order_irrelevant 2 _ _ Hp Ha Hb)).
Defined.

(** * Properties of the component around the scorer *)

Lemma truthy_trim_true_inv (s : string) :
  JS.truthy (JS.trim s) = true -> JS.trim s <> "".
Proof. destruct (JS.trim s); [discriminate|discriminate]. Qed.

Lemma analysed_bounds (r : SentimentResult) :
  analysed r -> (1 <= wordCount r)%nat /\ 0 < confidence r <= 0.9.
Proof.
  intros [now [t [Hne Hr]]].
  destruct (classify_nonblank now t Hne) as [sc [Hsc Hr']].
  rewrite Hr in Hr'. injection Hr' as ->. simpl.
  destruct (label_confidence_bounds _ _ sc (counts_sum t) Hsc) as [[_ H9] _].
  destruct (label_confidence_pos _ _ sc (counts_sum t) Hsc) as [H0 _].
  split; [apply totalWords_pos|]. split; assumption.
Qed.

(** X11.  "Add to History" and its handler agree: where the button is
    disabled [handleAnalyze] changes nothing; where it is enabled the pair
    of the current text and result is put first, followed by the nine most
    recent earlier entries in their order, so the history never grows beyond
    ten and a full history loses its oldest entry. *)
Theorem add_to_history (s : App.State) :
  (App.addDisabled s = true -> App.handleAnalyze s = s) /\
  (App.addDisabled s = false ->
     exists r,
       App.result s = Some r /\
       App.history (App.handleAnalyze s)
       = Entry.mk (App.text s) r :: firstn 9 (App.history s) /\
       App.text (App.handleAnalyze s) = App.text s /\
       App.result (App.handleAnalyze s) = App.result s) /\
  (List.length (App.history (App.handleAnalyze s))
   <= Nat.max (List.length (App.history s)) 10)%nat /\
  (App.addDisabled s = false -> List.length (App.history s) = 10%nat ->
     tl (App.history (App.handleAnalyze s)) = removelast (App.history s)).
Proof.
  destruct s as [t r h a tm]. unfold App.addDisabled, App.handleAnalyze.
  cbn [App.text App.result App.history].
  destruct (JS.truthy (JS.trim t)), r as [r|];
    cbn [negb orb App.text App.result App.history];
    repeat split; intros; try discriminate; try lia.
  - exists r. repeat split.
  - cbn [List.length]. rewrite length_firstn. lia.
  - cbn [tl]. rewrite removelast_firstn_len. f_equal. lia.
Qed.

Lemma Forall_firstn {A : Type} (Q : A -> Prop) (n : nat) (l : list A) :
  Forall Q l -> Forall Q (firstn n l).
Proof.
  intros H. revert n. induction H as [|x l Hx Hl IH]; intros [|n]; simpl;
    constructor; auto.
Qed.

Lemma initial_invariant : invariant App.initial.
Proof.
  unfold invariant. simpl. repeat split; try lia; try constructor;
    intros; discriminate.
Qed.

Lemma step_invariant (e : App.Event) (s s' : App.State) :
  invariant s -> App.step e s = Some s' -> invariant s'.
Proof.
  intros [Hlen [Hall [Hres Htm]]] Hstep.
  destruct s as [t r h a tm]. cbn [App.history App.result App.timer] in *.
  destruct e as [value| |now| |]; cbn [App.step] in Hstep.
  - injection Hstep as <-. unfold invariant. cbn. auto.
  - injection Hstep as <-. unfold App.effect, invariant.
    cbn [App.text]. destruct (JS.truthy (JS.trim t)) eqn:Et;
      cbn [App.history App.result App.timer].
    + repeat split; auto. intros t0 [= <-].
      apply truthy_trim_true_inv, Et.
    + repeat split; auto; intros; discriminate.
  - unfold App.timeout in Hstep. cbn [App.timer] in Hstep.
    destruct tm as [captured|]; [|discriminate].
    destruct (analyzeSentiment now captured) as [res|] eqn:Ea;
      [|discriminate].
    injection Hstep as <-. unfold invariant.
    cbn [App.history App.result App.timer].
    repeat split; auto; [|intros; discriminate].
    intros r0 [= <-]. exists now, captured. split; [|exact Ea].
    apply Htm. reflexivity.
  - injection Hstep as <-. unfold App.handleAnalyze, invariant.
    cbn [App.text App.result].
    destruct (JS.truthy (JS.trim t)) eqn:Et; [destruct r as [r|]|];
      cbn [App.history App.result App.timer]; auto.
    repeat split; auto.
    + cbn [List.length]. rewrite length_firstn. lia.
    + constructor; [|apply Forall_firstn, Hall].
      split; cbn [Entry.text Entry.result].
      * apply truthy_trim_true_inv, Et.
      * apply Hres. reflexivity.
  - injection Hstep as <-. unfold App.handleClear, invariant.
    cbn [App.history App.result App.timer].
    repeat split; auto; try (cbn; lia); try constructor;
      intros; discriminate.
Qed.

Lemma run_invariant (es : list App.Event) (s s' : App.State) :
  invariant s -> App.run es s = Some s' -> invariant s'.
Proof.
  revert s. induction es as [|e es IH]; intros s Hinv Hrun; simpl in Hrun.
  - injection Hrun as <-. exact Hinv.
  - destruct (App.step e s) as [s1|] eqn:E; [|discriminate].
    apply (IH s1); [|exact Hrun]. exact (step_invariant e s s1 Hinv E).
Qed.

(** X12.  In every state reached from the initial one by any sequence of
    text changes, effect runs, timer callbacks and button clicks: the
    history has at most ten entries; every entry has text that is not blank
    and a result that the scorer returned for text that is not blank, hence
    with wordCount at least 1 and confidence in (0, 0.9], never the blank
    default; and an export, which happens only for a history that is not
    empty, carries that history as it is. *)
Theorem history_invariant (es : list App.Event) (s : App.State) :
  App.run es App.initial = Some s ->
  (List.length (App.history s) <= 10)%nat /\
  Forall (fun e =>
            JS.trim (Entry.text e) <> "" /\
            analysed (Entry.result e) /\
            (1 <= wordCount (Entry.result e))%nat /\
            0 < confidence (Entry.result e) <= 0.9)
         (App.history s) /\
  (forall isoNow,
     (App.handleExport isoNow s = None <-> App.history s = []) /\
     (forall d, App.handleExport isoNow s = Some d ->
                App.analyses d = App.history s /\
                (1 <= List.length (App.analyses d) <= 10)%nat)).
Proof.
  intros Hrun.
  destruct (run_invariant es _ s initial_invariant Hrun)
    as [Hlen [Hall _]].
  split; [exact Hlen|]. split.
  - eapply Forall_impl; [|exact Hall].
    intros e [Ht Ha]. split; [exact Ht|]. split; [exact Ha|].
    apply analysed_bounds, Ha.
  - intros isoNow. unfold App.handleExport.
    destruct (App.history s) as [|e h] eqn:Eh; cbn [List.length Nat.eqb].
    + split; [tauto|]. intros d Hd. discriminate.
    + split; [split; discriminate|].
      intros d [= <-]. cbn [App.analyses List.length].
      cbn [List.length] in Hlen. split; [reflexivity|lia].
Qed.

Lemma history_invariant_witness :
  exists s,
    App.run [App.Change "good"; App.Effect; App.Timeout 3; App.Analyze;
             App.Analyze]
            App.initial = Some s /\
    List.length (App.history s) = 2%nat /\
    Forall (fun e => JS.trim (Entry.text e) <> "") (App.history s).
Proof.
  eexists. split; [vm_compute; reflexivity|].
  split; [reflexivity|].
  match goal with
  | |- Forall _ (App.history ?st) =>
      assert (Hrun : App.run [App.Change "good"; App.Effect; App.Timeout 3;
                              App.Analyze; App.Analyze]
                             App.initial = Some st)
        by (vm_compute; reflexivity);
      destruct (history_invariant _ _ Hrun) as [_ [Hall _]]
  end.
  eapply Forall_impl; [|exact Hall]. intros e He. exact (proj1 He).
Defined.

(** X13.  The history can pair a text with the result of an earlier text:
    when the text changes after a result has arrived and "Add to History" is
    clicked before the new timer fires, the entry holds the new text with
    the result of the old one. *)
Theorem stale_result_in_history (now : Z) (t1 t2 : string) :
  JS.trim t1 <> "" -> JS.trim t2 <> "" ->
  exists r1 s,
    analyzeSentiment now t1 = Some r1 /\
    App.run [App.Change t1; App.Effect; App.Timeout now; App.Effect;
             App.Change t2; App.Effect; App.Analyze]
            App.initial = Some s /\
    App.history s = [Entry.mk t2 r1] /\
    App.text s = t2 /\ App.result s = Some r1 /\ App.timer s = Some t2.
Proof.
  intros H1 H2.
  destruct (classify_nonblank now t1 H1) as [sc [_ Hr]].
  pose proof (truthy_trim_true t1 H1) as E1.
  pose proof (truthy_trim_true t2 H2) as E2.
  do 2 eexists. split; [exact Hr|].
  cbn [App.run App.step]. unfold App.setText, App.effect, App.timeout,
    App.handleAnalyze.
  repeat (cbn [App.text App.result App.history App.timer App.isAnalyzing
                App.initial];
          first [rewrite E1 | rewrite E2 | rewrite Hr]).
  cbn [App.text App.result App.history App.timer App.isAnalyzing firstn].
  repeat split.
Qed.

Lemma stale_result_in_history_witness :
  JS.trim "good" <> "" /\ JS.trim "awful" <> "" /\
  exists r1 s,
    analyzeSentiment 1 "good" = Some r1 /\
    App.run [App.Change "good"; App.Effect; App.Timeout 1; App.Effect;
             App.Change "awful"; App.Effect; App.Analyze]
            App.initial = Some s /\
    App.history s = [Entry.mk "awful" r1] /\
    sentiment r1 = Positive /\
    exists r2, analyzeSentiment 1 "awful" = Some r2 /\ sentiment r2 = Negative.
Proof.
  assert (H1 : JS.trim "good" <> "") by (vm_compute; discriminate).
  assert (H2 : JS.trim "awful" <> "") by (vm_compute; discriminate).
  split; [exact H1|]. split; [exact H2|].
  destruct (stale_result_in_history 1 "good" "awful" H1 H2)
    as [r1 [s [Hr [Hrun [Hh _]]]]].
  exists r1, s. repeat split; auto.
  - assert (E : analyzeSentiment 1 "good"
                = Some {| sentiment := Positive; confidence := 0.9;
                          positiveScore := 1 # 1; negativeScore := 0 # 1;
                          neutralScore := 0 # 1; wordCount := 1;
                          timestamp := 1 |}) by (vm_compute; reflexivity).
    rewrite E in Hr. injection Hr as <-. reflexivity.
  - eexists. split; [vm_compute; reflexivity|reflexivity].
Defined.

(** X14.  "Clear All" followed by the effect it triggers brings the
    component back to its initial state from any state: the handler empties
    text, result and history, and the effect, finding the text blank, drops
    the pending timer and the spinner. *)
Theorem clear_resets (s : App.State) :
  App.run [App.Clear; App.Effect] s = Some App.initial /\
  App.addDisabled (App.handleClear s) = true /\
  App.wordSentiments (App.handleClear s) = [] /\
  (forall isoNow, App.handleExport isoNow (App.handleClear s) = None).
Proof. repeat split. Qed.

Lemma length_append (a b : string) :
  String.length (a ++ b) = (String.length a + String.length b)%nat.
Proof. induction a as [|c a IH]; simpl; [reflexivity|]. rewrite IH. reflexivity. Qed.

Lemma length_substring_0 (m : nat) (s : string) :
  String.length (substring 0 m s) = Nat.min m (String.length s).
Proof.
  revert s. induction m as [|m IH]; intros [|c s]; simpl; try reflexivity.
  rewrite IH. reflexivity.
Qed.

(** X15.  The text shown for a history entry is the entry text itself when
    that has at most 200 code units, and otherwise its first 200 code units
    followed by three dots.  It always starts like the entry text, is never
    longer than 203, and is longer than the entry text exactly when that has
    201 or 202 code units. *)
Theorem shown_text_truncation (entryText : string) :
  let n := String.length entryText in
  let shown := App.shownText entryText in
  ((n <= 200)%nat -> shown = entryText) /\
  ((200 < n)%nat ->
     shown = substring 0 200 entryText ++ "..." /\
     String.length shown = 203%nat) /\
  (String.length shown <= 203)%nat /\
  (forall i, (i < Nat.min 200 n)%nat -> get i shown = get i entryText) /\
  ((n < String.length shown)%nat <-> n = 201%nat \/ n = 202%nat).
Proof.
  intros n shown. unfold shown, App.shownText. fold n.
  assert (Hsub : String.length (substring 0 200 entryText) = Nat.min 200 n).
  { apply length_substring_0. }
  destruct (200 <? n)%nat eqn:E.
  - apply Nat.ltb_lt in E.
    assert (Hlen : String.length (substring 0 200 entryText ++ "...")
                   = 203%nat).
    { rewrite length_append, Hsub.
      change (String.length "...") with 3%nat. lia. }
    repeat split; intros; try lia; try assumption.
    + rewrite <- append_correct1 by lia.
      rewrite substring_correct1 by lia. f_equal. lia.
  - apply Nat.ltb_ge in E. fold n.
    repeat split; intros; try lia; reflexivity.
Qed.

(** X16.  The word panel gets no tags exactly when the text is the empty
    string.  For any other text it gets one tag per token, at least one; a
    text of white space only is not treated as empty and gets two tags with
    the empty word. *)
Theorem word_panel_tags (s : App.State) :
  (App.wordSentiments s = [] <-> App.text s = "") /\
  (App.text s <> "" ->
     App.wordSentiments s = getWordSentiments (App.text s) /\
     List.length (App.wordSentiments s) = totalWords (App.text s) /\
     (1 <= List.length (App.wordSentiments s))%nat) /\
  (App.text s <> "" -> JS.trim (App.text s) = "" ->
     App.wordSentiments s
     = [ {| word := ""; tag := Neutral; score := 0 |};
         {| word := ""; tag := Neutral; score := 0 |} ]).
Proof.
  unfold App.wordSentiments. destruct (App.text s) as [|c t] eqn:Et.
  - simpl. repeat split; intros; congruence.
  - cbn [JS.truthy].
    assert (Hlen : List.length (getWordSentiments (String c t))
                   = totalWords (String c t)).
    { unfold getWordSentiments, Scorer.getWordSentiments.
      rewrite length_map. reflexivity. }
    pose proof (totalWords_pos (String c t)) as Hpos.
    repeat split; intros; try discriminate; try lia.
    + exfalso. rewrite H in Hlen. simpl in Hlen. lia.
    + match goal with H : JS.trim _ = "" |- _ => apply trim_blank in H;
        pose proof (tokenize_blank _ H) as Ht end.
      unfold getWordSentiments, Scorer.getWordSentiments.
      unfold tokenize in Ht. rewrite Ht. reflexivity.
Qed.

(** * The rounded scorer against the exact one *)

Lemma Qmin_close (a b a' b' e : Q) :
  a - e <= a' <= a + e -> b - e <= b' <= b + e ->
  Qmin a b - e <= Qmin a' b' <= Qmin a b + e.
Proof.
  intros Ha Hb.
  destruct (Q.min_spec a b) as [[H E]|[H E]];
  destruct (Q.min_spec a' b') as [[H' E']|[H' E']];
  rewrite E, E'; split; lra.
Qed.

Lemma label64_close (c : Counts) (total : nat) :
  (positiveCount c + negativeCount c + neutralCount c <= total)%nat ->
  (1 <= total)%nat ->
  exists sc sc64,
    Scorer.label c total = Some sc /\
    Scorer.label64 c total = Some sc64 /\
    fst sc64 = fst sc /\
    snd sc - 4 * Double.u <= snd sc64 <= snd sc + 4 * Double.u.
Proof.
  intros Hsum Hpos.
  assert (Hu : Double.u == 1 # 9007199254740992) by reflexivity.
  assert (L9 : 0.9 - 4 * Double.u <= Double.literal 0.9 <= 0.9 + 4 * Double.u)
    by (split; vm_compute; discriminate).
  assert (L8 : 0.8 - 4 * Double.u <= Double.literal 0.8 <= 0.8 + 4 * Double.u)
    by (split; vm_compute; discriminate).
  assert (L5 : 0.5 - 4 * Double.u <= Double.literal 0.5 <= 0.5 + 4 * Double.u)
    by (split; vm_compute; discriminate).
  assert (L3 : 0.3 - Double.u <= Double.literal 0.3 <= 0.3 + Double.u)
    by (split; vm_compute; discriminate).
  assert (Hmul : forall m, (m <= total)%nat ->
            ofNat m / ofNat total * 2 - 4 * Double.u
            <= Double.mul (Double.round (ofNat m / ofNat total)) 2
            <= ofNat m / ofNat total * 2 + 4 * Double.u).
  { intros m Hm.
    destruct (fraction_bounds m total Hm Hpos) as [H0 H1].
    pose proof (DoubleFacts.round_near (ofNat m / ofNat total) 1
                  ltac:(split; lra)) as E1.
    pose proof (DoubleFacts.round_unit (ofNat m / ofNat total)
                  ltac:(split; lra)) as B1.
    pose proof (DoubleFacts.round_near
                  (Double.round (ofNat m / ofNat total) * 2) 2
                  ltac:(split; lra)) as E2.
    unfold Double.mul. split; lra. }
  assert (Hadd : forall m, (m <= total)%nat ->
            0.3 + ofNat m / ofNat total - 4 * Double.u
            <= Double.add (Double.literal 0.3)
                          (Double.round (ofNat m / ofNat total))
            <= 0.3 + ofNat m / ofNat total + 4 * Double.u).
  { intros m Hm.
    destruct (fraction_bounds m total Hm Hpos) as [H0 H1].
    pose proof (DoubleFacts.round_near (ofNat m / ofNat total) 1
                  ltac:(split; lra)) as E1.
    pose proof (DoubleFacts.round_unit (ofNat m / ofNat total)
                  ltac:(split; lra)) as B1.
    pose proof (DoubleFacts.round_near
                  (Double.literal 0.3 + Double.round (ofNat m / ofNat total))
                  2 ltac:(split; lra)) as E2.
    unfold Double.add. split; lra. }
  destruct (label_cases c total Hsum)
    as [[Hp H]|[[Hnp [Hn H]]|[[Hnp [Hnn [Hz H]]]|[Hnp [Hnn [Hz H]]]]]];
  destruct (label64_cases c total Hsum)
    as [[Hp' H']|[[Hnp' [Hn' H']]|[[Hnp' [Hnn' [Hz' H']]]|[Hnp' [Hnn' [Hz' H']]]]]];
    try contradiction; try lia;
    do 2 eexists; (split; [exact H|]); (split; [exact H'|]);
    (split; [reflexivity|]); cbn [snd].
  - apply Qmin_close; [exact L9|apply Hmul; lia].
  - apply Qmin_close; [exact L9|apply Hmul; lia].
  - exact L5.
  - apply Qmin_close; [exact L8|apply Hadd; lia].
Qed.

(** X17.  Rounding is small and never changes the label: on every input the
    rounded scorer and the exact one return the same label, wordCount and
    timestamp, and their confidence and their three scores differ by at most
    1e-9. *)
Theorem rounding_is_small (now : Z) (inputText : string) :
  exists r r64,
    analyzeSentiment now inputText = Some r /\
    analyzeSentiment64 now inputText = Some r64 /\
    sentiment r64 = sentiment r /\
    wordCount r64 = wordCount r /\
    timestamp r64 = timestamp r /\
    Qabs (confidence r64 - confidence r) <= 1e-9 /\
    Qabs (positiveScore r64 - positiveScore r) <= 1e-9 /\
    Qabs (negativeScore r64 - negativeScore r) <= 1e-9 /\
    Qabs (neutralScore r64 - neutralScore r) <= 1e-9.
Proof.
  assert (Hu : Double.u == 1 # 9007199254740992) by reflexivity.
  assert (He : 1e-9 == 1 # 1000000000) by reflexivity.
  destruct (trim_dec inputText) as [Hb|Hne].
  - exists (emptyDefault now), (emptyDefault now).
    split; [apply classify_blank, Hb|].
    split; [apply classify64_blank, Hb|].
    repeat split; vm_compute; discriminate.
  - pose proof (counts_sum inputText) as Hsum.
    pose proof (totalWords_pos inputText) as Hpos.
    destruct (label64_close _ _ Hsum Hpos)
      as [sc [sc64 [Hsc [Hsc64 [Hfst Hconf]]]]].
    destruct (classify_nonblank now inputText Hne) as [sc' [Hsc' Hr]].
    rewrite Hsc in Hsc'. injection Hsc' as <-.
    destruct (classify64_nonblank now inputText Hne)
      as [sc0 [sc64' [_ [_ [_ Hr64]]]]].
    assert (E64 : analyzeSentiment64 now inputText
                  = Some {| sentiment := fst sc64;
                            confidence := snd sc64;
                            positiveScore :=
                              Double.round
                                (ofNat (positiveCount (counts inputText))
                                 / ofNat (totalWords inputText));
                            negativeScore :=
                              Double.round
                                (ofNat (negativeCount (counts inputText))
                                 / ofNat (totalWords inputText));
                            neutralScore :=
                              Double.sub
                                (Double.sub 1
                                   (Double.round
                                      (ofNat (positiveCount (counts inputText))
                                       / ofNat (totalWords inputText))))
                                (Double.round
                                   (ofNat (negativeCount (counts inputText))
                                    / ofNat (totalWords inputText)));
                            wordCount := totalWords inputText;
                            timestamp := now |}).
    { clear Hr64. unfold analyzeSentiment64, Scorer.analyzeSentiment64.
      rewrite (truthy_trim_true inputText Hne). cbn [negb]. cbv zeta.
      change (Scorer.countWords positiveWords negativeWords neutralWords
                (Scorer.tokenize inputText)) with (counts inputText).
      change (List.length (Scorer.tokenize inputText))
        with (totalWords inputText).
      rewrite Hsc64.
      replace (Nat.max (totalWords inputText) 1) with (totalWords inputText)
        by lia.
      rewrite !div64_ofNat by exact Hpos. reflexivity. }
    do 2 eexists. split; [exact Hr|]. split; [exact E64|].
    cbn [sentiment wordCount timestamp confidence positiveScore
         negativeScore neutralScore].
    destruct (scores64_bounds (positiveCount (counts inputText))
                (negativeCount (counts inputText)) (totalWords inputText)
                ltac:(lia) Hpos)
      as [Hps [Hns [Hnu1 [Eps [Ens [Enu _]]]]]].
    repeat split; try assumption; try reflexivity;
      apply Qabs_Qle_condition; split; lra.
Qed.

(** * [Double.round] against the kernel's binary64

    On the operations of the three score expressions, at the counters of
    the counterexamples, the rounded rationals are the numbers that the
    kernel's binary64 arithmetic computes. *)
Lemma round_agrees_with_binary64 :
  let f (p n : nat) := PrimFloat.div (Binary64.ofNat p) (Binary64.ofNat n) in
  let q (p n : nat) := Double.round (ofNat p / ofNat n) in
  let one := Binary64.ofNat 1 in
  Binary64.agrees (f 3 7)%nat (q 3 7)%nat = true /\
  Binary64.agrees (f 2 7)%nat (q 2 7)%nat = true /\
  Binary64.agrees
    (PrimFloat.sub (PrimFloat.sub one (f 3 7)%nat) (f 2 7)%nat)
    (Double.sub (Double.sub 1 (q 3 7)%nat) (q 2 7)%nat) = true /\
  Binary64.agrees
    (PrimFloat.add
       (PrimFloat.add (f 3 7)%nat (f 2 7)%nat)
       (PrimFloat.sub (PrimFloat.sub one (f 3 7)%nat) (f 2 7)%nat))
    (Double.add
       (Double.add (q 3 7)%nat (q 2 7)%nat)
       (Double.sub (Double.sub 1 (q 3 7)%nat) (q 2 7)%nat)) = true /\
  Binary64.agrees
    (PrimFloat.sub (PrimFloat.sub one (f 4 5)%nat) (f 1 5)%nat)
    (Double.sub (Double.sub 1 (q 4 5)%nat) (q 1 5)%nat) = true /\
  Binary64.agrees
    (PrimFloat.sub (PrimFloat.sub one (f 0 5)%nat) (f 4 5)%nat)
    (Double.sub (Double.sub 1 (q 0 5)%nat) (q 4 5)%nat) = true /\
  Binary64.agrees (f 9 10)%nat (Double.literal 0.9) = true /\
  Binary64.agrees (f 8 10)%nat (Double.literal 0.8) = true /\
  Binary64.agrees (f 3 10)%nat (Double.literal 0.3) = true /\
  Binary64.agrees
    (PrimFloat.add (f 3 10)%nat (f 2 3)%nat)
    (Double.add (Double.literal 0.3) (q 2 3)%nat) = true /\
  Binary64.agrees
    (PrimFloat.mul (f 1 3)%nat (Binary64.ofNat 2))
    (Double.mul (q 1 3)%nat 2) = true.
Proof. vm_compute. repeat split. Qed.
